(** * The EXT packager: key generation and the signed container

    A shallow embedding of [src/packager.ts] ([keygenSync], [keygen],
    [pack], [createZip]) and the properties of the container layout, of
    the validation order and of the scratch-directory discipline.

    The JavaScript runtime is modelled the way the code uses it:
    - a [Buffer] is a list of bytes, with [Buffer.alloc], [Buffer.from],
      [copy] and [writeUint32LE] written out, together with their range
      checks;
    - the file system is a finite map from (canonical) path strings to
      nodes; every call into [fs], [crypto] or [archiver] is recorded in
      a trace, so that "no work was done" is a statement about the trace;
    - exceptions and rejected promises are the error side of a small
      state-and-error monad; [try ... finally] is a combinator of it. *)

From Stdlib Require Import NArith Strings.Byte Strings.String.
From stdpp Require Import gmap strings list fin_maps.

Local Open Scope N_scope.

(** ** Bytes and buffers *)

Abbreviation byte := Byte.byte.
Abbreviation Buffer := (list Byte.byte).

#[global] Instance byte_eq_decision : EqDecision Byte.byte := Byte.byte_eq_dec.

(** Storing a number into a [Uint8Array] slot keeps its low eight bits. *)
Definition byte_of_N (n : N) : byte :=
  match Byte.of_N (n mod 256) with
  | Some b => b
  | None => Byte.x00
  end.

Module Buf.

(** [Buffer.alloc(size)]: a zero-filled buffer; a [RangeError] above the
    platform's [kMaxLength]. *)
Definition alloc (kMaxLength : N) (size : nat) : option Buffer :=
  if N.of_nat size <=? kMaxLength then Some (replicate size Byte.x00) else None.

(** [Buffer.from(array)]: every entry is truncated to a byte. *)
Definition from (array : list N) : Buffer := byte_of_N <$> array.

(** [source.copy(target, targetStart)]: overwrites [target] from
    [targetStart] on with as much of [source] as fits; nothing is copied
    when [targetStart] is at or past the end of [target]. *)
Definition copy (source target : Buffer) (targetStart : nat) : Buffer :=
  take targetStart target
    ++ take (length target - targetStart) source
    ++ drop (targetStart + length source) target.

(** The four bytes [writeUint32LE] stores, least significant first. *)
Definition le32 (value : N) : Buffer :=
  [ byte_of_N value;
    byte_of_N (N.shiftr value 8);
    byte_of_N (N.shiftr value 16);
    byte_of_N (N.shiftr value 24) ].

(** [buf.writeUint32LE(value, offset)]: a [RangeError] when [value] is
    not an unsigned 32-bit integer or when the four bytes do not fit. *)
Definition writeUint32LE (buf : Buffer) (value : nat) (offset : nat) : option Buffer :=
  if (N.of_nat value <=? 4294967295) && bool_decide (offset + 4 ≤ length buf)%nat
  then Some (copy (le32 (N.of_nat value)) buf offset)
  else None.

(** [buf.readUint32LE(offset)], used by the reader of a container. *)
Definition readUint32LE (buf : Buffer) (offset : nat) : option N :=
  match take 4 (drop offset buf) with
  | [b0; b1; b2; b3] =>
      Some (Byte.to_N b0 + N.shiftl (Byte.to_N b1) 8
            + N.shiftl (Byte.to_N b2) 16 + N.shiftl (Byte.to_N b3) 24)
  | _ => None
  end.

(** [buf.subarray(start, start + len)]. *)
Definition slice (buf : Buffer) (start len : nat) : Buffer :=
  take len (drop start buf).

End Buf.

(** ** Errors *)

Inductive error :=
  | Error (message : string)           (* [throw new Error(message)] in packager.ts *)
  | SystemError (code path : string)   (* a failed [fs] call *)
  | CryptoError (operation : string)   (* a failed [crypto] call *)
  | RangeError (what : string)         (* a [Buffer] range check *)
  | ArchiverError (detail : string).   (* the archive's 'error' event *)

Definition res (A : Type) : Type := (error + A)%type.

Definition of_option {A} (e : error) (o : option A) : res A :=
  match o with
  | Some a => inr a
  | None => inl e
  end.

(** ** The world: file system, entropy, trace *)

(* The objects of the modelled worlds are regular files, directories and
   sockets. FIFOs and devices, which can be read and written without
   being files, are not among them. *)
Inductive node :=
  | File (content : Buffer)
  | Directory
  | Socket.       (* neither file nor directory; it cannot be opened *)

Inductive Stats := StatFile | StatDirectory | StatOther.

Definition isDirectory (s : Stats) : bool :=
  match s with StatDirectory => true | _ => false end.
Definition isFile (s : Stats) : bool :=
  match s with StatFile => true | _ => false end.

(** The options object handed to [crypto.generateKeyPair(Sync)]. *)
Record KeyPairOptions := {
  modulusLength : N;
  privateKeyEncoding : string * string;   (* type, format *)
  publicKeyEncoding : string * string;
}.

(** The object [generateKeyPairSync] returns, as PEM texts. *)
Module KeyPair.
Record t := make {
  publicKey : string;
  privateKey : string;
}.
End KeyPair.

(** Every call that leaves the program is recorded. *)
Inductive event :=
  | EvExists (path : string)
  | EvReadFile (path : string)
  | EvWriteFile (path : string) (data : Buffer)
  | EvStat (path : string)
  | EvMkdtemp (path : string)
  | EvRm (path : string)
  | EvCreateZip (src dst : string)
  | EvGenerateKeyPair (type : string) (options : KeyPairOptions)
  | EvCreatePrivateKey (pem : Buffer)
  | EvCreatePublicKey
  | EvExportKey (format type : string)
  | EvSign (algorithm : string) (data : Buffer).

Record World := mkWorld {
  fs : gmap string node;
  entropy : N;
  trace : list event;
}.

Definition log (ev : event) (w : World) : World :=
  mkWorld (fs w) (entropy w) (trace w ++ [ev]).
Definition set_fs (m : gmap string node) (w : World) : World :=
  mkWorld m (entropy w) (trace w).
Definition draw (w : World) : World :=
  mkWorld (fs w) (N.succ (entropy w)) (trace w).
Definition logs (evs : list event) (w : World) : World :=
  mkWorld (fs w) (entropy w) (trace w ++ evs).

(** How a write of [data] to a path that can be opened ends. *)
Inductive write_outcome :=
  | WriteOk
  | WriteRefused              (* the open fails: nothing is touched *)
  | WriteShort (n : nat).     (* the write fails after [n] bytes *)

(** What lies outside packager.ts: Node's [crypto], the [archiver]
    package, the host's temporary directory, and the I/O faults of the
    machine. The claims hold for every platform. *)
Record Platform := {
  PrivateKey : Type;
  PublicKey : Type;
  crypto_createPrivateKey : Buffer → option PrivateKey;
  crypto_createPublicKey : PrivateKey → PublicKey;
  crypto_export : PublicKey → string → string → Buffer;
  crypto_sign : string → PrivateKey → Buffer → option Buffer;
  (* type, options, entropy: the key pair *)
  crypto_generate : string → KeyPairOptions → N → option KeyPair.t;
  (* zlib level, file system, source directory: the bytes the archive
     emitted, and the archive's error if it raised one *)
  archiver_zip : N → gmap string node → string → Buffer * option error;
  os_tmpdir : string;
  path_sep : string;
  mkdtemp_suffix : N → string;
  kMaxLength : N;
  read_fault : string → bool;
  write_fault : string → Buffer → write_outcome;
  (* the system error (ENOENT, EACCES, ENOSPC, ...) with which a directory
     under the given prefix cannot be made, if there is one *)
  mkdtemp_fault : string → option string;
  (* the system error (EBUSY, EACCES, EIO, ...) with which the removal of
     the given directory breaks off, if there is one, and whether an
     entry beneath it was already gone by then *)
  rm_fault : string → option string;
  rm_gone : string → string → bool;
}.

(** ** The monad of effects: state and exceptions *)

Definition M (A : Type) : Type := World → res A * World.

#[global] Instance M_ret : MRet M := λ A a w, (inr a, w).
#[global] Instance M_bind : MBind M := λ A B k m w,
  match m w with
  | (inl e, w') => (inl e, w')
  | (inr a, w') => k a w'
  end.

#[global] Instance res_ret : MRet res := λ A a, inr a.
#[global] Instance res_bind : MBind res := λ A B k r,
  match r with
  | inl e => inl e
  | inr a => k a
  end.

Definition throw {A} (e : error) : M A := λ w, (inl e, w).

Definition lift {A} (r : res A) : M A := λ w, (r, w).

(** [try { body } finally { cleanup }]: the cleanup runs on both exits,
    and an exception of the cleanup replaces the outcome of the body. *)
Definition try_finally {A} (body : M A) (cleanup : M unit) : M A := λ w,
  let '(r, w1) := body w in
  match cleanup w1 with
  | (inl e, w2) => (inl e, w2)
  | (inr _, w2) => (r, w2)
  end.

(** [a && m()]: [m] is not called when [a] is false. *)
Definition and_then (a : bool) (m : M bool) : M bool :=
  if a then m else mret false.

(** [await new Promise((resolve, reject) => ...)]: the executor settles
    the promise through one of the two callbacks; an exception of the
    executor rejects it. *)
Definition await_new_Promise {A} (executor : (A → res A) → (error → res A) → M (res A)) : M A :=
  λ w, match executor inr inl w with
       | (inr settled, w') => (settled, w')
       | (inl e, w') => (inl e, w')
       end.

(** ** Node's primitives, as packager.ts calls them *)

Section Primitives.
Context (P : Platform).

(** A path lies under a directory when it extends the directory's name
    and a separator. Paths are canonical (no links, no dot segments, no
    separator at the end): two strings name two objects. *)
Definition under (dir path : string) : bool :=
  String.prefix (dir +:+ path_sep P) path.

(** What a recursive removal of [dir] keeps. *)
Definition outside (dir : string) (entry : string * node) : Prop :=
  entry.1 ≠ dir ∧ under dir entry.1 = false.

#[global] Instance outside_dec dir entry : Decision (outside dir entry).
Proof. unfold outside. apply _. Defined.

(** What a recursive removal of [dir] that breaks off leaves: all that
    lies outside, the directory itself, and the entries it had not yet
    reached. *)
Definition left_behind (dir : string) (entry : string * node) : Prop :=
  outside dir entry ∨ entry.1 = dir ∨ rm_gone P dir entry.1 = false.

#[global] Instance left_behind_dec dir entry : Decision (left_behind dir entry).
Proof. unfold left_behind. apply _. Defined.

(** What a write stream on [dst] that is fed [produced] leaves in the
    file system: the whole of it, the part written before the stream
    failed, or nothing when the file could not be opened. *)
Definition stage (dst : string) (produced : Buffer) (m : gmap string node)
  : gmap string node :=
  match write_fault P dst produced with
  | WriteOk => <[dst := File produced]> m
  | WriteShort n => <[dst := File (take n produced)]> m
  | WriteRefused => m
  end.

(** [path.join(a, b)] on canonical paths. *)
Definition path_join (a b : string) : string := a +:+ path_sep P +:+ b.

(** [fs.existsSync(path)]. *)
Definition existsSync (path : string) : M bool := λ w,
  (inr (bool_decide (is_Some (fs w !! path))), log (EvExists path) w).

(** [fs.readFileSync(path)] and [fs.promises.readFile(path)]. *)
Definition read_file (path : string) : M Buffer := λ w,
  let w := log (EvReadFile path) w in
  match fs w !! path with
  | None => (inl (SystemError "ENOENT" path), w)
  | Some Directory => (inl (SystemError "EISDIR" path), w)
  | Some Socket => (inl (SystemError "ENXIO" path), w)
  | Some (File content) =>
      if read_fault P path then (inl (SystemError "EIO" path), w)
      else (inr content, w)
  end.
Definition readFileSync := read_file.
Definition readFile := read_file.

(** [fs.writeFileSync(path, data)] and [fs.promises.writeFile(path, data)]:
    the file is opened with flag 'w' (created or truncated) and filled;
    a write that breaks off leaves what it had written. *)
Definition write_file (path : string) (data : Buffer) : M unit := λ w,
  let w := log (EvWriteFile path data) w in
  match fs w !! path with
  | Some Directory => (inl (SystemError "EISDIR" path), w)
  | Some Socket => (inl (SystemError "ENXIO" path), w)
  | Some (File _) | None =>
      match write_fault P path data with
      | WriteOk => (inr tt, set_fs (<[path := File data]> (fs w)) w)
      | WriteRefused => (inl (SystemError "EACCES" path), w)
      | WriteShort n =>
          (inl (SystemError "ENOSPC" path),
           set_fs (<[path := File (take n data)]> (fs w)) w)
      end
  end.
Definition writeFileSync := write_file.
Definition writeFile := write_file.

(** [fs.promises.stat(path)]. *)
Definition stat (path : string) : M Stats := λ w,
  let w := log (EvStat path) w in
  match fs w !! path with
  | None => (inl (SystemError "ENOENT" path), w)
  | Some Directory => (inr StatDirectory, w)
  | Some (File _) => (inr StatFile, w)
  | Some Socket => (inr StatOther, w)
  end.

(** [fs.promises.mkdtemp(prefix)]: a directory named [prefix] followed by
    random characters. It fails when the directory cannot be made where
    the prefix points (the map of paths is flat: that the parent is
    missing, not writable or full is what [mkdtemp_fault] tells) and
    when the name is taken. *)
Definition mkdtemp (prefix : string) : M string := λ w,
  let name := prefix +:+ mkdtemp_suffix P (entropy w) in
  let w := draw (log (EvMkdtemp name) w) in
  match mkdtemp_fault P prefix with
  | Some code => (inl (SystemError code prefix), w)
  | None =>
      match fs w !! name with
      | Some _ => (inl (SystemError "EEXIST" name), w)
      | None => (inr name, set_fs (<[name := Directory]> (fs w)) w)
      end
  end.

(** [fs.promises.rm(path, { recursive: true })]: the object and all
    that lies under it go; without [force], a missing path is an error.
    The removal can break off ([rm_fault]): then it fails with that
    error and the directory is still there, with what was not yet
    removed. *)
Definition rm_recursive (path : string) : M unit := λ w,
  let w := log (EvRm path) w in
  match fs w !! path with
  | None => (inl (SystemError "ENOENT" path), w)
  | Some _ =>
      match rm_fault P path with
      | None => (inr tt, set_fs (filter (outside path) (fs w)) w)
      | Some code =>
          (inl (SystemError code path),
           set_fs (filter (left_behind path) (fs w)) w)
      end
  end.

(** [crypto.generateKeyPairSync(type, options)]: returns the object
    [{ publicKey, privateKey }] or throws. *)
Definition generateKeyPairSync (type : string) (options : KeyPairOptions)
  : M KeyPair.t := λ w,
  let w' := draw (log (EvGenerateKeyPair type options) w) in
  match crypto_generate P type options (entropy w) with
  | Some key => (inr key, w')
  | None => (inl (CryptoError "generateKeyPair"), w')
  end.

(** [crypto.generateKeyPair(type, options, callback)]: the callback
    receives [(err, publicKey, privateKey)]. *)
Definition generateKeyPair {R} (type : string) (options : KeyPairOptions)
    (callback : option error → string → string → R) : M R := λ w,
  let w' := draw (log (EvGenerateKeyPair type options) w) in
  match crypto_generate P type options (entropy w) with
  | Some key =>
      (inr (callback None (KeyPair.publicKey key) (KeyPair.privateKey key)), w')
  | None =>
      (inr (callback (Some (CryptoError "generateKeyPair")) EmptyString EmptyString), w')
  end.

(** [crypto.createPrivateKey(pem)]. *)
Definition createPrivateKey (pem : Buffer) : M (PrivateKey P) := λ w,
  (of_option (CryptoError "createPrivateKey") (crypto_createPrivateKey P pem),
   log (EvCreatePrivateKey pem) w).

(** [crypto.createPublicKey(privateKey)]. *)
Definition createPublicKey (key : PrivateKey P) : M (PublicKey P) := λ w,
  (inr (crypto_createPublicKey P key), log EvCreatePublicKey w).

(** [publicKey.export({ format, type })]. *)
Definition export (key : PublicKey P) (format type : string) : M Buffer := λ w,
  (inr (crypto_export P key format type), log (EvExportKey format type) w).

(** The [Sign] object: [crypto.createSign(algorithm)], [update], [sign]. *)
Record Sign := { algorithm : string; pending : Buffer }.

Definition createSign (alg : string) : Sign :=
  {| algorithm := alg; pending := [] |}.
Definition Sign_update (s : Sign) (data : Buffer) : Sign :=
  {| algorithm := algorithm s; pending := pending s ++ data |}.
(* [sign.end()] closes the stream; what was fed to it stays as it is *)
Definition Sign_end (s : Sign) : Sign := s.
Definition Sign_sign (s : Sign) (key : PrivateKey P) : M Buffer := λ w,
  (of_option (CryptoError "sign") (crypto_sign P (algorithm s) key (pending s)),
   log (EvSign (algorithm s) (pending s)) w).

(** A string written to a file is written in UTF-8; PEM text is ASCII. *)
Definition utf8 (s : string) : Buffer := list_byte_of_string s.

End Primitives.

(** ** packager.ts *)

Module KeygenOptions.
Record t := make {
  privateKeyFile : string;
  force : option bool;
}.
End KeygenOptions.

Module PackOptions.
Record t := make {
  privateKeyFile : string;
  sourcePath : string;
  outFile : string;
  force : option bool;
}.
End PackOptions.

(** The options both key generators pass to [crypto]. *)
Definition RSA_2048_PKCS8_PEM : KeyPairOptions :=
  {| modulusLength := 2048;
     privateKeyEncoding := ("pkcs8", "pem");
     publicKeyEncoding := ("pkcs1", "pem") |}.

Definition MAGIC : list N := [0x45; 0x58; 0x54; 0x38].
Definition VERSION : list N := [0x02; 0x00; 0x00; 0x00].

Section Packager.
Context (P : Platform).

(** [keygenSync], lines 19-43. *)
Definition keygenSync (options : KeygenOptions.t) : M unit :=
  (* Validate options *)
  let force := default false (KeygenOptions.force options) in
  taken ← and_then (negb force) (existsSync (KeygenOptions.privateKeyFile options));
  if (taken : bool) then
    throw (Error ("Private key file '" +:+ KeygenOptions.privateKeyFile options
                  +:+ "' already exists"))
  else
  (* Generate key *)
  key ← generateKeyPairSync P "rsa" RSA_2048_PKCS8_PEM;
  (* Export key *)
  writeFileSync P (KeygenOptions.privateKeyFile options) (utf8 (KeyPair.privateKey key)).

(** [keygen], lines 49-81. *)
Definition keygen (options : KeygenOptions.t) : M unit :=
  (* Validate options *)
  let force := default false (KeygenOptions.force options) in
  taken ← and_then (negb force) (existsSync (KeygenOptions.privateKeyFile options));
  if (taken : bool) then
    throw (Error ("Private key file '" +:+ KeygenOptions.privateKeyFile options
                  +:+ "' already exists"))
  else
  (* Generate key *)
  key ← await_new_Promise (λ resolve reject,
    generateKeyPair P "rsa" RSA_2048_PKCS8_PEM (λ err _publicKey privateKey,
      match err with
      | Some e => reject e
      | None => resolve privateKey
      end));
  (* Export key *)
  writeFile P (KeygenOptions.privateKeyFile options) (utf8 key).

(** [createZip], lines 164-185: the archive of [src] is piped into a
    write stream on [dst]; the stream's 'close' resolves the promise
    while [ok] holds, the archive's 'error' clears [ok] and rejects.
    Only the archive clears [ok]: the write stream has no 'error'
    listener, so when the staging write fails the stream closes, [ok]
    still holds and the promise resolves over a file that is short or
    missing. The runs modelled are those in which the promise settles. *)
Definition createZip (src dst : string) : M unit :=
  await_new_Promise (λ resolve reject, λ w,
    let w := log (EvCreateZip src dst) w in
    let '(produced, err) := archiver_zip P 9 (fs w) src in
    let w := set_fs (stage P dst produced (fs w)) w in
    match err with
    | Some e => (inr (reject e), w)
    | None => (inr (resolve tt), w)
    end).

(** "Read zip file", lines 120-136 of [pack]. *)
Definition read_zip (sourcePath : string) : M Buffer :=
  st ← stat sourcePath;
  if isDirectory st then
    tmp ← mkdtemp P (os_tmpdir P +:+ path_sep P);
    try_finally
      (let file := path_join P tmp "extension.zip" in
       _ ← createZip sourcePath file;
       readFile P file)
      (rm_recursive P tmp)
  else if isFile st then
    readFile P sourcePath
  else
    throw (Error ("Source path '" +:+ sourcePath +:+ "' is not a directory or a file")).

(** "Allocate output buffer" and "Write to output buffer", lines 145-156
    of [pack]. *)
Definition assemble (publicKeyDer : Buffer) (publicKeyLength : nat)
    (signature : Buffer) (signatureLength : nat) (zip : Buffer) : res Buffer :=
  let length := (16 + publicKeyLength + signatureLength + length zip)%nat in
  buffer ← of_option (RangeError "size") (Buf.alloc (kMaxLength P) length);
  let buffer := Buf.copy (Buf.from MAGIC) buffer 0 in
  let buffer := Buf.copy (Buf.from VERSION) buffer 4 in
  buffer ← of_option (RangeError "value") (Buf.writeUint32LE buffer publicKeyLength 8);
  buffer ← of_option (RangeError "value") (Buf.writeUint32LE buffer signatureLength 12);
  let buffer := Buf.copy publicKeyDer buffer 16 in
  let buffer := Buf.copy signature buffer (16 + publicKeyLength) in
  let buffer := Buf.copy zip buffer (16 + publicKeyLength + signatureLength) in
  inr buffer.

(** [pack], lines 99-161. *)
Definition pack (options : PackOptions.t) : M unit :=
  (* Validate options *)
  let force := default false (PackOptions.force options) in
  hasKey ← existsSync (PackOptions.privateKeyFile options);
  if negb hasKey then
    throw (Error ("Private key file '" +:+ PackOptions.privateKeyFile options
                  +:+ "' does not exist"))
  else
  hasSource ← existsSync (PackOptions.sourcePath options);
  if negb hasSource then
    throw (Error ("Source path '" +:+ PackOptions.sourcePath options
                  +:+ "' does not exist"))
  else
  taken ← and_then (negb force) (existsSync (PackOptions.outFile options));
  if (taken : bool) then
    throw (Error ("Output file '" +:+ PackOptions.outFile options
                  +:+ "' already exists"))
  else
  (* Import private key *)
  pem ← readFileSync P (PackOptions.privateKeyFile options);
  privateKey ← createPrivateKey P pem;
  publicKey ← createPublicKey P privateKey;
  (* Export public key *)
  publicKeyDer ← export P publicKey "der" "spki";
  let publicKeyLength := length publicKeyDer in
  (* Read zip file *)
  zip ← read_zip (PackOptions.sourcePath options);
  (* Create signature *)
  let sign := createSign "RSA-SHA1" in
  let sign := Sign_update sign zip in
  let sign := Sign_end sign in
  signature ← Sign_sign P sign privateKey;
  let signatureLength := length signature in
  (* Allocate output buffer, write to output buffer *)
  buffer ← lift (assemble publicKeyDer publicKeyLength signature signatureLength zip);
  (* Save to file *)
  writeFile P (PackOptions.outFile options) buffer.

End Packager.

(** ** The reader's side of the format, and the names of the errors *)

Module Spec.

(** Reading a container back: the magic and the version, then the two
    little-endian 32-bit lengths, then the three sections cut by those
    lengths. A length that does not fit the file is a parse failure. *)
Definition parse (buf : Buffer) : option (Buffer * Buffer * Buffer) :=
  if bool_decide (Buf.slice buf 0 4 = Buf.from MAGIC
                  ∧ Buf.slice buf 4 4 = Buf.from VERSION) then
    publicKeyLength ← N.to_nat <$> Buf.readUint32LE buf 8;
    signatureLength ← N.to_nat <$> Buf.readUint32LE buf 12;
    if bool_decide (16 + publicKeyLength + signatureLength ≤ length buf)%nat then
      Some (Buf.slice buf 16 publicKeyLength,
            Buf.slice buf (16 + publicKeyLength) signatureLength,
            drop (16 + publicKeyLength + signatureLength) buf)
    else None
  else None.

(** The error kinds of the specification, as packager.ts raises them. *)
Definition AlreadyExists_key (path : string) : error :=
  Error ("Private key file '" +:+ path +:+ "' already exists").
Definition AlreadyExists_output (path : string) : error :=
  Error ("Output file '" +:+ path +:+ "' already exists").
Definition NotFound_key (path : string) : error :=
  Error ("Private key file '" +:+ path +:+ "' does not exist").
Definition NotFound_source (path : string) : error :=
  Error ("Source path '" +:+ path +:+ "' does not exist").

(** An event that only looks at the file system. *)
Definition is_probe (ev : event) : Prop := ∃ path, ev = EvExists path.

End Spec.

(** The layout as one concatenation: what the seven writes add up to. *)
Definition container (publicKeyDer signature zip : Buffer) : Buffer :=
  Buf.from MAGIC ++ Buf.from VERSION
    ++ Buf.le32 (N.of_nat (length publicKeyDer))
    ++ Buf.le32 (N.of_nat (length signature))
    ++ publicKeyDer ++ signature ++ zip.

(** The events a run added to the trace. *)
Definition new_events (w w' : World) : list event :=
  drop (length (trace w)) (trace w').

(** The name [mkdtemp] will pick in world [w]. *)
Definition scratch (P : Platform) (w : World) : string :=
  (os_tmpdir P +:+ path_sep P) +:+ mkdtemp_suffix P (entropy w).

(** What [read_zip] may do to the file system: nothing, or create the
    scratch directory under a free name and remove it again. *)
Definition scratch_frame (P : Platform) (w w' : World) : Prop :=
  fs w' = fs w
  ∨ (fs w !! scratch P w = None
     ∧ fs w' = filter (outside P (scratch P w)) (fs w)).

(** What is left when the removal of the scratch directory broke off:
    the scratch directory may still be there, the rest is as it was. *)
Definition scratch_left (P : Platform) (w w' : World) : Prop :=
  fs w !! scratch P w = None
  ∧ is_Some (rm_fault P (scratch P w))
  ∧ ∀ path, path ≠ scratch P w → under P (scratch P w) path = false →
            fs w' !! path = fs w !! path.

(** An event that neither signs nor writes a file. *)
Definition quiet (ev : event) : Prop :=
  match ev with
  | EvSign _ _ | EvWriteFile _ _ => False
  | _ => True
  end.

(** An event that does not write a file. *)
Definition no_write (ev : event) : Prop :=
  match ev with
  | EvWriteFile _ _ => False
  | _ => True
  end.

(** On a real file system nothing lives beneath a name that is free. *)
Definition scratch_vacant (P : Platform) (w : World) : Prop :=
  fs w !! scratch P w = None →
  map_Forall (λ path _, under P (scratch P w) path = false) (fs w).

(** ** A small platform to run the code on *)

Module Example.
Import Byte.

Definition mkdtemp_suffix_of (seed : N) : string :=
  match seed with
  | 0 => "0"
  | _ => "1"
  end.

Definition platform_with (faults : string → Buffer → write_outcome)
    (archive_error : option error)
    (mkdtemp_error rm_error : string → option string) : Platform :=
  {| PrivateKey := Buffer;
     PublicKey := Buffer;
     crypto_createPrivateKey pem := if decide (pem = []) then None else Some pem;
     crypto_createPublicKey key := reverse key;
     crypto_export key _ _ := key;
     crypto_sign _ key data := Some (take 2 key ++ take 2 data);
     crypto_generate _ _ seed :=
       Some (KeyPair.make "PUBLIC" ("PRIVATE" +:+ mkdtemp_suffix_of seed));
     archiver_zip _ _ _ := ([x50; x4b; x05], archive_error);
     os_tmpdir := "/tmp";
     path_sep := "/";
     mkdtemp_suffix seed := "a1b2c" +:+ mkdtemp_suffix_of seed;
     kMaxLength := 4294967296;
     read_fault _ := false;
     write_fault := faults;
     mkdtemp_fault := mkdtemp_error;
     rm_fault := rm_error;
     rm_gone _ _ := false |}.

Definition platform (faults : string → Buffer → write_outcome)
    (archive_error : option error) : Platform :=
  platform_with faults archive_error (λ _, None) (λ _, None).

Definition sound : Platform := platform (λ _ _, WriteOk) None.
Definition disk_full : Platform := platform (λ _ _, WriteShort 3) None.
Definition scratch_stuck : Platform :=
  platform_with (λ _ _, WriteOk) None (λ _, None) (λ _, Some "EBUSY").
Definition no_tmpdir : Platform :=
  platform_with (λ _ _, WriteOk) None (λ _, Some "ENOENT") (λ _, None).
Definition staging_short : Platform :=
  platform (λ path _, if String.eqb path "ext.ext" then WriteOk else WriteShort 2) None.
Definition broken_archive : Platform :=
  platform (λ _ _, WriteOk) (Some (ArchiverError "finalize")).

Definition disk : gmap string node :=
  {[ "private.pem" := File [x01; x02; x03];
     "ext.zip" := File [x50; x4b; x05; x06];
     "ext" := Directory;
     "ext/a.txt" := File [x68; x65; x6c; x6c; x6f] ]}.

Definition world : World := mkWorld disk 0 [].

Definition pack_file : PackOptions.t :=
  PackOptions.make "private.pem" "ext.zip" "ext.ext" None.
Definition pack_dir : PackOptions.t :=
  PackOptions.make "private.pem" "ext" "ext.ext" None.
Definition pack_missing : PackOptions.t :=
  PackOptions.make "private.pem" "nowhere" "ext.ext" None.
Definition keygen_again : KeygenOptions.t :=
  KeygenOptions.make "private.pem" None.
Definition keygen_new : KeygenOptions.t :=
  KeygenOptions.make "fresh.pem" (Some false).

End Example.

(** ** The command line (the yargs script beside packager.ts) *)

(** [s.endsWith(suffix)]. The suffixes used are ASCII, so counting in
    bytes or in UTF-16 units cuts a string at the same place. *)
Definition endsWith (s suffix : string) : bool :=
  (String.length suffix <=? String.length s)%nat
  && String.eqb
       (String.substring (String.length s - String.length suffix)
          (String.length suffix) s)
       suffix.

(** [getOutFile], lines 73-81: the output file derived from the source
    path when no [--out] is given. *)
Definition getOutFile (out : option string) (src : string) : string :=
  match out with
  | Some out => out
  | None =>
      if endsWith src ".zip" && (4 <? String.length src)%nat
      then String.substring 0 (String.length src - 4) src +:+ ".ext"
      else src +:+ ".ext"
  end.

(** [path.sep]: the slash on POSIX, the backslash (character 92) on
    Windows. *)
Definition posix_sep : string := "/".
Definition win32_sep : string := String (Ascii.ascii_of_nat 92) EmptyString.

(** The parsed arguments as yargs hands them to the handlers, defaults
    ([key]: 'private.pem', [force]: false) filled in. *)
Module KeygenArgs.
Record t := make {
  key : string;
  force : bool;
}.
End KeygenArgs.

Module PackArgs.
Record t := make {
  src : string;
  out : option string;
  key : string;
  force : bool;
}.
End PackArgs.

Section Cli.
Context (P : Platform).

(** The handler of [keygen], lines 29-34. *)
Definition keygen_command (args : KeygenArgs.t) : M unit :=
  keygen P (KeygenOptions.make (KeygenArgs.key args) (Some (KeygenArgs.force args))).

(** The handler of [pack <src>], lines 60-67. *)
Definition pack_command (args : PackArgs.t) : M unit :=
  pack P (PackOptions.make (PackArgs.key args) (PackArgs.src args)
            (getOutFile (PackArgs.out args) (PackArgs.src args))
            (Some (PackArgs.force args))).

End Cli.

(** The [existsSync] calls of a validation that passes. *)
Definition validation_probes (options : PackOptions.t) : list event :=
  [EvExists (PackOptions.privateKeyFile options);
   EvExists (PackOptions.sourcePath options)]
  ++ (if default false (PackOptions.force options) then []
      else [EvExists (PackOptions.outFile options)]).

(** ** More scenes to run the code on *)

Module Scene.
Import Byte.

Definition disk : gmap string node :=
  {[ "private.pem" := File [x01; x02; x03];
     "empty.pem" := File [];
     "keys" := Directory;
     "sock" := Socket;
     "ext.zip" := File [x50; x4b; x05; x06];
     "ext" := Directory;
     "old.ext" := File [x00] ]}.

Definition world : World := mkWorld disk 0 [].

Definition pack_socket : PackOptions.t :=
  PackOptions.make "private.pem" "sock" "sock.ext" None.
Definition pack_bad_key : PackOptions.t :=
  PackOptions.make "empty.pem" "ext.zip" "ext.ext" None.
Definition pack_key_directory : PackOptions.t :=
  PackOptions.make "keys" "ext.zip" "ext.ext" None.
Definition pack_dir : PackOptions.t :=
  PackOptions.make "private.pem" "ext" "ext.ext" (Some false).
Definition pack_file : PackOptions.t :=
  PackOptions.make "private.pem" "ext.zip" "ext.ext" None.
Definition pack_fresh_key : PackOptions.t :=
  PackOptions.make "fresh.pem" "ext.zip" "ext.ext" None.
Definition keygen_directory : KeygenOptions.t :=
  KeygenOptions.make "keys" (Some true).
Definition keygen_new : KeygenOptions.t :=
  KeygenOptions.make "fresh.pem" None.
Definition pack_into_scratch : PackOptions.t :=
  PackOptions.make "private.pem" "ext" "/tmp/a1b2c0/extension.zip" None.
Definition cli_pack_zip : PackArgs.t :=
  PackArgs.make "ext.zip" None "private.pem" false.

End Scene.

(** * Properties *)

(** ** Buffers *)

Lemma copy_into_zeros (pre source : Buffer) (room : nat) :
  Buf.copy source (pre ++ replicate (length source + room) Byte.x00) (length pre)
  = (pre ++ source) ++ replicate room Byte.x00.
Proof.
  unfold Buf.copy.
  rewrite take_app_length.
  rewrite length_app, length_replicate.
  replace (length pre + (length source + room) - length pre)%nat
    with (length source + room)%nat by lia.
  rewrite take_ge by lia.
  rewrite drop_app_ge by lia.
  replace (length pre + length source - length pre)%nat with (length source) by lia.
  rewrite drop_replicate.
  replace (length source + room - length source)%nat with room by lia.
  by rewrite <- app_assoc.
Qed.

Lemma copy_into_zeros_at (pre source : Buffer) (n room start : nat) :
  start = length pre → n = (length source + room)%nat →
  Buf.copy source (pre ++ replicate n Byte.x00) start
  = (pre ++ source) ++ replicate room Byte.x00.
Proof. intros -> ->. apply copy_into_zeros. Qed.

Lemma copy_into_zeros_start (source : Buffer) (n room : nat) :
  n = (length source + room)%nat →
  Buf.copy source (replicate n Byte.x00) 0 = source ++ replicate room Byte.x00.
Proof. intros ->. by apply (copy_into_zeros_at []). Qed.

Lemma write32_into_zeros (pre : Buffer) (value n room start : nat) :
  start = length pre → n = (4 + room)%nat →
  N.of_nat value ≤ 4294967295 →
  Buf.writeUint32LE (pre ++ replicate n Byte.x00) value start
  = Some ((pre ++ Buf.le32 (N.of_nat value)) ++ replicate room Byte.x00).
Proof.
  intros -> -> Hv. unfold Buf.writeUint32LE.
  apply N.leb_le in Hv. rewrite Hv. cbn [andb].
  rewrite bool_decide_eq_true_2.
  - f_equal. by apply copy_into_zeros_at.
  - rewrite length_app, length_replicate. lia.
Qed.

Lemma write32_Some buf value offset buf' :
  Buf.writeUint32LE buf value offset = Some buf' →
  N.of_nat value ≤ 4294967295.
Proof.
  unfold Buf.writeUint32LE. destruct (N.of_nat value <=? 4294967295) eqn:E; [|done].
  intros _. by apply N.leb_le.
Qed.

Lemma container_length pk sig zip :
  length (container pk sig zip) = (16 + length pk + length sig + length zip)%nat.
Proof. unfold container. rewrite !length_app. cbn. lia. Qed.

Section Assemble.
Context (P : Platform).

(** Within the range checks the seven writes produce the layout. *)
Lemma assemble_ok pk sig zip :
  N.of_nat (16 + length pk + length sig + length zip) ≤ kMaxLength P →
  N.of_nat (length pk) ≤ 4294967295 →
  N.of_nat (length sig) ≤ 4294967295 →
  assemble P pk (length pk) sig (length sig) zip = inr (container pk sig zip).
Proof.
  intros Hmax Hpk Hsig. unfold assemble, Buf.alloc.
  apply N.leb_le in Hmax. rewrite Hmax. cbn [of_option mbind res_bind].
  set (rest := (length pk + length sig + length zip)%nat).
  rewrite (copy_into_zeros_start (Buf.from MAGIC) _ (12 + rest)); [|cbn; lia].
  rewrite (copy_into_zeros_at _ (Buf.from VERSION) _ (8 + rest)); [|done|cbn; lia].
  rewrite (write32_into_zeros _ _ _ (4 + rest)); [|done|lia|done].
  cbn [of_option mbind res_bind].
  rewrite (write32_into_zeros _ _ _ rest); [|done|lia|done].
  cbn [of_option mbind res_bind].
  rewrite (copy_into_zeros_at _ pk _ (length sig + length zip));
    [|rewrite !length_app; cbn; lia|unfold rest; lia].
  rewrite (copy_into_zeros_at _ sig _ (length zip));
    [|rewrite !length_app; cbn; lia|lia].
  rewrite (copy_into_zeros_at _ zip _ 0);
    [|rewrite !length_app; cbn; lia|lia].
  unfold container. cbn [replicate]. rewrite app_nil_r.
  by rewrite <- !app_assoc.
Qed.

(** Outside them the assembly raises a [RangeError]: a container is
    never produced with a truncated length field. *)
Lemma assemble_inv pk sig zip buf :
  assemble P pk (length pk) sig (length sig) zip = inr buf →
  buf = container pk sig zip
  ∧ N.of_nat (length pk) ≤ 4294967295
  ∧ N.of_nat (length sig) ≤ 4294967295.
Proof.
  intros H.
  assert (N.of_nat (16 + length pk + length sig + length zip) ≤ kMaxLength P
          ∧ N.of_nat (length pk) ≤ 4294967295
          ∧ N.of_nat (length sig) ≤ 4294967295) as (Hmax & Hpk & Hsig).
  { revert H. unfold assemble, Buf.alloc.
    destruct (_ <=? kMaxLength P) eqn:Hmax; [|done].
    cbn [of_option mbind res_bind].
    destruct (Buf.writeUint32LE _ (length pk) 8) as [b1|] eqn:H1; [|done].
    cbn [of_option mbind res_bind].
    destruct (Buf.writeUint32LE _ (length sig) 12) as [b2|] eqn:H2; [|done].
    intros _. apply N.leb_le in Hmax.
    eauto using write32_Some. }
  rewrite assemble_ok in H by done. by simplify_eq.
Qed.

End Assemble.

(** ** Little-endian length fields *)

Lemma to_N_byte_of_N n : Byte.to_N (byte_of_N n) = n mod 256.
Proof.
  unfold byte_of_N. destruct (Byte.of_N (n mod 256)) as [b|] eqn:E.
  - by apply Byte.to_of_N.
  - apply Byte.of_N_None_iff in E.
    pose proof (N.mod_upper_bound n 256). lia.
Qed.

Lemma le32_value (v : N) :
  v ≤ 4294967295 →
  v mod 256 + N.shiftl (N.shiftr v 8 mod 256) 8
    + N.shiftl (N.shiftr v 16 mod 256) 16
    + N.shiftl (N.shiftr v 24 mod 256) 24 = v.
Proof.
  intros Hv. rewrite !N.shiftr_div_pow2, !N.shiftl_mul_pow2.
  change (2 ^ 8) with 256. change (2 ^ 16) with 65536. change (2 ^ 24) with 16777216.
  zify. Z.to_euclidean_division_equations. lia.
Qed.

Lemma read_le32 (pre post : Buffer) (v : N) (offset : nat) :
  offset = length pre → v ≤ 4294967295 →
  Buf.readUint32LE (pre ++ Buf.le32 v ++ post) offset = Some v.
Proof.
  intros -> Hv. unfold Buf.readUint32LE.
  rewrite drop_app_length. cbn [Buf.le32 app take].
  rewrite !to_N_byte_of_N. by rewrite le32_value.
Qed.

(** ** The sections of a container *)

Lemma container_magic pk sig zip :
  take 8 (container pk sig zip)
  = [Byte.x45; Byte.x58; Byte.x54; Byte.x38; Byte.x02; Byte.x00; Byte.x00; Byte.x00].
Proof. reflexivity. Qed.

Lemma container_publicKeyLength pk sig zip :
  N.of_nat (length pk) ≤ 4294967295 →
  Buf.readUint32LE (container pk sig zip) 8 = Some (N.of_nat (length pk)).
Proof.
  intros H. unfold container.
  rewrite (app_assoc (Buf.from MAGIC)). by apply read_le32.
Qed.

Lemma container_signatureLength pk sig zip :
  N.of_nat (length sig) ≤ 4294967295 →
  Buf.readUint32LE (container pk sig zip) 12 = Some (N.of_nat (length sig)).
Proof.
  intros H. unfold container.
  rewrite (app_assoc (Buf.from VERSION)), (app_assoc (Buf.from MAGIC)).
  by apply read_le32.
Qed.

Lemma container_publicKey pk sig zip :
  Buf.slice (container pk sig zip) 16 (length pk) = pk.
Proof.
  unfold Buf.slice, container. cbn [Buf.from MAGIC VERSION fmap list_fmap Buf.le32 app drop]; rewrite drop_0.
  by rewrite take_app_length.
Qed.

Lemma container_signature pk sig zip :
  Buf.slice (container pk sig zip) (16 + length pk) (length sig) = sig.
Proof.
  unfold Buf.slice, container.
  rewrite <- drop_drop.
  cbn [Buf.from MAGIC VERSION fmap list_fmap Buf.le32 app drop]; rewrite drop_0.
  rewrite drop_app_length. by rewrite take_app_length.
Qed.

Lemma container_payload pk sig zip :
  drop (16 + length pk + length sig) (container pk sig zip) = zip.
Proof.
  unfold container.
  rewrite <- !drop_drop.
  cbn [Buf.from MAGIC VERSION fmap list_fmap Buf.le32 app drop]; rewrite drop_0.
  by rewrite !drop_app_length.
Qed.

(** ** Paths and the scratch directory *)

Lemma append_cons (c : Ascii.ascii) (a b : string) :
  String c a +:+ b = String c (a +:+ b).
Proof. reflexivity. Qed.

Lemma prefix_append (a b : string) : String.prefix a (a +:+ b) = true.
Proof.
  induction a as [|c a IH].
  - by destruct b.
  - rewrite append_cons. simpl. destruct (Ascii.ascii_dec c c); [apply IH | done].
Qed.

Lemma append_assoc (a b c : string) : (a +:+ b) +:+ c = a +:+ (b +:+ c).
Proof.
  induction a as [|x a IH]; [done|].
  rewrite !append_cons. by f_equal.
Qed.

Section Scratch.
Context (P : Platform).

Lemma under_path_join dir name : under P dir (path_join P dir name) = true.
Proof. unfold under, path_join. rewrite <- append_assoc. apply prefix_append. Qed.

(** Removing the scratch directory undoes its creation and the staging
    of the archive inside it. *)
Lemma filter_outside_staged (m : gmap string node) dir name staged :
  filter (outside P dir) (<[path_join P dir name := staged]> (<[dir := Directory]> m))
  = filter (outside P dir) m.
Proof.
  apply map_eq. intros path. apply option_eq. intros x.
  rewrite !map_lookup_filter_Some, !lookup_insert_Some.
  unfold outside; cbn [fst]. split.
  - intros [[[<- _]|[_ [[<- _]|[_ ?]]]] [Hne Hu]]; try done.
    by rewrite under_path_join in Hu.
  - intros [Hm [Hne Hu]]. split; [|done].
    right. split; [|by auto].
    intros <-. by rewrite under_path_join in Hu.
Qed.

(** With nothing beneath the free scratch name, removal restores the
    file system exactly. *)
Lemma filter_outside_vacant (m : gmap string node) dir :
  m !! dir = None →
  map_Forall (λ path _, under P dir path = false) m →
  filter (outside P dir) m = m.
Proof.
  intros Hfree Hvac. apply map_filter_id. intros path x Hx.
  split; cbn [fst].
  - intros ->. congruence.
  - by apply (Hvac path x).
Qed.

Lemma filter_outside_gone (m : gmap string node) dir path :
  path = dir ∨ under P dir path = true →
  filter (outside P dir) m !! path = None.
Proof.
  intros Hp. apply map_lookup_filter_None. right.
  intros x _ [Hne Hu]; cbn [fst] in *. destruct Hp; congruence.
Qed.

Lemma filter_outside_made (m : gmap string node) dir :
  filter (outside P dir) (<[dir := Directory]> m) = filter (outside P dir) m.
Proof.
  apply map_eq. intros path. apply option_eq. intros x.
  rewrite !map_lookup_filter_Some, !lookup_insert_Some.
  unfold outside; cbn [fst]. naive_solver.
Qed.

(** Removing the scratch directory undoes whatever the staging left. *)
Lemma filter_outside_stage (m : gmap string node) dir name produced :
  filter (outside P dir) (stage P (path_join P dir name) produced (<[dir := Directory]> m))
  = filter (outside P dir) m.
Proof.
  unfold stage. destruct (write_fault P _ produced).
  - apply filter_outside_staged.
  - apply filter_outside_made.
  - apply filter_outside_staged.
Qed.

Lemma stage_is_Some (m : gmap string node) dst produced path :
  is_Some (m !! path) → is_Some (stage P dst produced m !! path).
Proof.
  intros H. unfold stage.
  destruct (write_fault P dst produced); try done;
    apply lookup_insert_is_Some'; auto.
Qed.

Lemma stage_outside (m : gmap string node) dir name produced path :
  under P dir path = false →
  stage P (path_join P dir name) produced m !! path = m !! path.
Proof.
  intros Hu. unfold stage.
  destruct (write_fault P _ produced); try done;
    apply lookup_insert_ne; intros <-; by rewrite under_path_join in Hu.
Qed.

(** A removal that broke off has left the directory and all outside it. *)
Lemma left_behind_self (m : gmap string node) dir :
  filter (left_behind P dir) m !! dir = m !! dir.
Proof.
  apply option_eq. intros x. rewrite map_lookup_filter_Some.
  unfold left_behind; cbn [fst]. naive_solver.
Qed.

Lemma left_behind_outside (m : gmap string node) dir path :
  path ≠ dir → under P dir path = false →
  filter (left_behind P dir) m !! path = m !! path.
Proof.
  intros Hne Hu. apply option_eq. intros x. rewrite map_lookup_filter_Some.
  unfold left_behind, outside; cbn [fst]. naive_solver.
Qed.

End Scratch.

(** ** Runs of the primitives *)

Lemma logs_log ev evs w : log ev (logs evs w) = logs (evs ++ [ev]) w.
Proof. unfold log, logs; cbn. by rewrite <- app_assoc. Qed.

Lemma logs_logs evs1 evs2 w : logs evs2 (logs evs1 w) = logs (evs1 ++ evs2) w.
Proof. unfold logs; cbn. by rewrite <- app_assoc. Qed.

Lemma logs_nil w : logs [] w = w.
Proof. destruct w. unfold logs; cbn. by rewrite app_nil_r. Qed.

Lemma new_events_app w w' evs : trace w' = trace w ++ evs → new_events w w' = evs.
Proof. intros H. unfold new_events. rewrite H. apply drop_app_length. Qed.

Ltac unfold_monad :=
  unfold and_then, try_finally, await_new_Promise, throw, lift in *;
  unfold mbind, M_bind, mret, M_ret in *.

Ltac unfold_prims :=
  unfold existsSync, readFileSync, readFile, read_file, writeFileSync, writeFile,
    write_file, stat, mkdtemp, rm_recursive, generateKeyPairSync, generateKeyPair,
    createPrivateKey, createPublicKey, export, Sign_sign in *.

Ltac world_simpl :=
  cbn [fs entropy trace log logs set_fs draw fst snd] in *.

Ltac same_world :=
  unfold log, logs; world_simpl; rewrite <- ?app_assoc; reflexivity.

Section ReadZip.
Context (P : Platform).

(** The guarded block of [read_zip]: whatever [createZip] and the read
    of the staged archive do, the removal runs last. When it goes
    through, what is left of the file system is what lay outside the
    scratch directory; when it breaks off, its error is the outcome. *)
Lemma scratch_block src tmp w r w' :
  is_Some (fs w !! tmp) →
  try_finally
    (let file := path_join P tmp "extension.zip" in
     _ ← createZip P src file; readFile P file)
    (rm_recursive P tmp) w = (r, w') →
  ∃ evs,
    trace w' = trace w ++ evs ++ [EvRm tmp] ∧ Forall quiet evs
    ∧ entropy w' = entropy w
    ∧ match rm_fault P tmp with
      | None =>
          fs w' = filter (outside P tmp)
                    (stage P (path_join P tmp "extension.zip")
                       (archiver_zip P 9 (fs w) src).1 (fs w))
      | Some code =>
          r = inl (SystemError code tmp)
          ∧ fs w' = filter (left_behind P tmp)
                      (stage P (path_join P tmp "extension.zip")
                         (archiver_zip P 9 (fs w) src).1 (fs w))
      end.
Proof.
  intros Htmp. unfold createZip. unfold_monad. unfold_prims. world_simpl.
  destruct (archiver_zip P 9 (fs w) src) as [produced err]. cbn [fst].
  pose proof (stage_is_Some P (fs w) (path_join P tmp "extension.zip") produced tmp Htmp)
    as [x Hx].
  destruct err as [e|]; world_simpl.
  - rewrite Hx. destruct (rm_fault P tmp) as [code|]; intros [= <- <-]; world_simpl;
      exists [EvCreateZip src (path_join P tmp "extension.zip")];
      rewrite <- ?app_assoc; split_and!; auto; repeat constructor.
  - destruct (stage P _ produced (fs w) !! path_join P tmp "extension.zip")
      as [[data| |]|]; [destruct (read_fault P _)|..]; world_simpl;
      rewrite Hx; destruct (rm_fault P tmp) as [code|]; intros [= <- <-]; world_simpl;
      exists [EvCreateZip src (path_join P tmp "extension.zip");
              EvReadFile (path_join P tmp "extension.zip")];
      rewrite <- ?app_assoc; split_and!; auto; repeat constructor.
Qed.

(** A regular file is read as it is. *)
Lemma read_zip_file src data w :
  fs w !! src = Some (File data) →
  read_zip P src w
  = (if read_fault P src then inl (SystemError "EIO" src) else inr data,
     logs [EvStat src; EvReadFile src] w).
Proof.
  intros Hsrc. unfold read_zip. unfold_monad. unfold_prims. world_simpl.
  rewrite Hsrc. cbn [isDirectory isFile]. world_simpl. rewrite Hsrc.
  destruct (read_fault P src); unfold log, logs; world_simpl;
    by rewrite <- app_assoc.
Qed.

(** A directory source: either no scratch directory could be made, or
    one was made under a free name and its removal was the last call. *)
Lemma read_zip_directory src w r w' :
  fs w !! src = Some Directory →
  read_zip P src w = (r, w') →
  ((is_Some (mkdtemp_fault P (os_tmpdir P +:+ path_sep P))
    ∨ is_Some (fs w !! scratch P w))
   ∧ (∃ code path, r = inl (SystemError code path))
   ∧ fs w' = fs w
   ∧ trace w' = trace w ++ [EvStat src; EvMkdtemp (scratch P w)])
  ∨ (mkdtemp_fault P (os_tmpdir P +:+ path_sep P) = None
     ∧ fs w !! scratch P w = None
     ∧ (∃ evs, trace w' = trace w ++ [EvStat src; EvMkdtemp (scratch P w)]
                                  ++ evs ++ [EvRm (scratch P w)]
               ∧ Forall quiet evs)
     ∧ match rm_fault P (scratch P w) with
       | None => fs w' = filter (outside P (scratch P w)) (fs w)
       | Some code =>
           r = inl (SystemError code (scratch P w))
           ∧ is_Some (fs w' !! scratch P w)
           ∧ ∀ path, path ≠ scratch P w → under P (scratch P w) path = false →
                     fs w' !! path = fs w !! path
       end).
Proof.
  intros Hsrc. unfold read_zip. unfold_monad.
  unfold stat at 1, mkdtemp at 1. world_simpl.
  rewrite Hsrc. cbn [isDirectory]. world_simpl. fold (scratch P w).
  destruct (mkdtemp_fault P (os_tmpdir P +:+ path_sep P)) as [code|] eqn:Hmk.
  { intros [= <- <-]. world_simpl. left. rewrite <- app_assoc. eauto 10. }
  destruct (fs w !! scratch P w) as [x|] eqn:Hfree.
  - intros [= <- <-]. world_simpl. left.
    rewrite <- app_assoc. eauto 10.
  - intros Hrun. right. split; [done|]. split; [done|].
    apply scratch_block in Hrun; world_simpl.
    2:{ rewrite lookup_insert_eq. eauto. }
    destruct Hrun as (evs & Htr & Hq & _ & Hfs).
    split.
    + exists evs. by rewrite Htr, <- !app_assoc.
    + destruct (rm_fault P (scratch P w)) as [code|].
      * destruct Hfs as [-> Hfs]. split; [done|]. rewrite Hfs. split.
        -- rewrite left_behind_self. apply stage_is_Some.
           rewrite lookup_insert_eq. eauto.
        -- intros path Hne Hu.
           rewrite left_behind_outside, stage_outside by done.
           by rewrite lookup_insert_ne.
      * by rewrite Hfs, filter_outside_stage.
Qed.

(** In every case the step adds only quiet events and touches nothing
    but the scratch directory, which a payload never leaves behind. *)
Lemma read_zip_run src w r w' :
  read_zip P src w = (r, w') →
  (∃ evs, trace w' = trace w ++ evs ∧ Forall quiet evs)
  ∧ match r with
    | inr _ => scratch_frame P w w'
    | inl _ => scratch_frame P w w' ∨ scratch_left P w w'
    end.
Proof.
  assert (scratch_frame P w w' →
          match r with
          | inr _ => scratch_frame P w w'
          | inl _ => scratch_frame P w w' ∨ scratch_left P w w'
          end) as Hkeep by (destruct r; auto).
  destruct (fs w !! src) as [[data| |]|] eqn:Hsrc.
  - rewrite (read_zip_file _ _ _ Hsrc). intros [= <- <-]. split.
    + eexists. split; [done|]. repeat constructor.
    + apply Hkeep. by left.
  - intros Hrun. apply read_zip_directory in Hrun; [|done].
    destruct Hrun as [(_ & _ & Hfs & Htr)|(_ & Hfree & (evs & Htr & Hq) & Hfs)].
    + split; [|apply Hkeep; by left]. eexists. split; [done|]. repeat constructor.
    + split.
      * eexists. split; [done|].
        apply Forall_app. split; [repeat constructor |].
        apply Forall_app. split; [done | repeat constructor].
      * destruct (rm_fault P (scratch P w)) as [code|] eqn:Hrm.
        -- destruct Hfs as (-> & _ & Hout). right.
           split; [done|]. split; [rewrite Hrm; eauto|done].
        -- apply Hkeep. by right.
  - unfold read_zip. unfold_monad. unfold_prims. world_simpl. rewrite Hsrc.
    cbn [isDirectory isFile]. intros [= <- <-]. split.
    + exists [EvStat src]. split; [done|]. repeat constructor.
    + by left; left.
  - unfold read_zip. unfold_monad. unfold_prims. world_simpl. rewrite Hsrc.
    intros [= <- <-]. split.
    + exists [EvStat src]. split; [done|]. repeat constructor.
    + by left; left.
Qed.

End ReadZip.

(** ** Runs of [pack] *)

Lemma quiet_no_write ev : quiet ev → no_write ev.
Proof. by destruct ev. Qed.

Lemma is_Some_bool {A} (o : option A) :
  bool_decide (is_Some o) = match o with Some _ => true | None => false end.
Proof. by destruct o. Qed.

Ltac stopped :=
  intros [= <- <-]; left; eexists _, _; split; [reflexivity|]; world_simpl;
  split; [rewrite <- ?app_assoc; reflexivity|];
  split; [repeat constructor | by left; left].

Ltac quiet_events :=
  repeat first
    [ apply List.Forall_nil
    | apply List.Forall_cons; [exact I|]
    | apply Forall_app; split
    | eassumption
    | eapply Forall_impl; [eassumption | apply quiet_no_write] ].

Section PackRun.
Context (P : Platform).

Lemma pack_run options w r w' :
  pack P options w = (r, w') →
  (∃ e evs,
      r = inl e ∧ trace w' = trace w ++ evs ∧ Forall no_write evs
      ∧ (scratch_frame P w w' ∨ scratch_left P w w'))
  ∨ (∃ pem key zip sig evk wz evs,
      fs w !! PackOptions.privateKeyFile options = Some (File pem)
      ∧ crypto_createPrivateKey P pem = Some key
      ∧ Forall quiet evk
      ∧ read_zip P (PackOptions.sourcePath options) (logs evk w) = (inr zip, wz)
      ∧ crypto_sign P "RSA-SHA1" key zip = Some sig
      ∧ N.of_nat (length (crypto_export P (crypto_createPublicKey P key) "der" "spki"))
          ≤ 4294967295
      ∧ N.of_nat (length sig) ≤ 4294967295
      ∧ trace wz = trace w ++ evs ∧ Forall quiet evs
      ∧ scratch_frame P w wz
      ∧ writeFile P (PackOptions.outFile options)
          (container (crypto_export P (crypto_createPublicKey P key) "der" "spki") sig zip)
          (log (EvSign "RSA-SHA1" zip) wz) = (r, w')).
Proof.
  destruct options as [pkf src out force].
  unfold pack. unfold_monad. unfold existsSync, readFileSync, read_file,
    createPrivateKey, createPublicKey, export, Sign_sign, createSign, Sign_update,
    Sign_end.
  cbn [PackOptions.privateKeyFile PackOptions.sourcePath PackOptions.outFile
       PackOptions.force algorithm pending app].
  world_simpl. rewrite !is_Some_bool.
  destruct (fs w !! pkf) as [nk|] eqn:Hk; cbn [negb]; world_simpl; [|stopped].
  rewrite !is_Some_bool.
  destruct (fs w !! src) as [ns|] eqn:Hs; cbn [negb]; world_simpl; [|stopped].
  destruct (default false force); cbn [negb]; unfold_monad; world_simpl;
    rewrite ?is_Some_bool;
    [|destruct (fs w !! out) as [no|] eqn:Ho; [stopped|]].
  all: world_simpl; rewrite Hk.
  all: destruct nk as [pem| |]; [|stopped..].
  all: destruct (read_fault P pkf); [stopped|].
  all: destruct (crypto_createPrivateKey P pem) as [key|] eqn:Hkey;
    cbn [of_option]; [|stopped].
  all: match goal with
       | |- context [read_zip P ?s ?wk] =>
           set (wk0 := wk);
           destruct (read_zip P s wk0) as [[e|zip] wz] eqn:Hz
       end.
  all: destruct (read_zip_run P _ _ _ _ Hz) as [(evz & Htr & Hq) Hframe].
  all: first [ change (scratch_frame P w wz) in Hframe
             | change (scratch_frame P w wz ∨ scratch_left P w wz) in Hframe ].
  all: subst wk0; world_simpl.
  all: try (destruct (crypto_sign P "RSA-SHA1" key zip) as [sig|] eqn:Hsig;
            cbn [of_option];
            [destruct (assemble P _ _ sig _ zip) as [e|buffer] eqn:Hasm|]).
  all: try (intros [= <- <-]; left; eexists _, _; split; [reflexivity|];
            world_simpl; rewrite Htr;
            split; [rewrite <- ?app_assoc; reflexivity|];
            split; [quiet_events | first [exact Hframe | left; exact Hframe]]).
  all: apply assemble_inv in Hasm as (-> & Hpk & Hsg).
  all: intros Hw; right.
  1: exists pem, key, zip, sig,
       [EvExists pkf; EvExists src; EvReadFile pkf; EvCreatePrivateKey pem;
        EvCreatePublicKey; EvExportKey "der" "spki"], wz.
  2: exists pem, key, zip, sig,
       [EvExists pkf; EvExists src; EvExists out; EvReadFile pkf;
        EvCreatePrivateKey pem; EvCreatePublicKey; EvExportKey "der" "spki"], wz.
  all: eexists.
  all: split_and!; [done|done|quiet_events| |done|done|done| | |done|exact Hw].
  all: try (refine (eq_trans _ Hz); f_equal; same_world).
  all: try (rewrite Htr, <- ?app_assoc; reflexivity).
  all: quiet_events.
Qed.

End PackRun.

(** ** The final write *)

Section WriteFile.
Context (P : Platform).

Lemma write_file_trace path data w r w' :
  write_file P path data w = (r, w') →
  trace w' = trace w ++ [EvWriteFile path data].
Proof.
  unfold write_file. world_simpl.
  destruct (fs w !! path) as [[| |]|]; try (by intros [= <- <-]).
  all: destruct (write_fault P path data); by intros [= <- <-].
Qed.

Lemma write_file_ok path data w w' :
  write_file P path data w = (inr tt, w') →
  fs w' = <[path := File data]> (fs w).
Proof.
  unfold write_file. world_simpl.
  destruct (fs w !! path) as [[| |]|]; try (by intros [= <-]).
  all: destruct (write_fault P path data); by intros [= <-].
Qed.




End WriteFile.

(** ** The container format *)

(** C6. Assembly round-trips: whenever the assembly of a public key, a
    signature and a payload produces a container, reading the container
    back (magic and version, the two little-endian 32-bit lengths, the
    three sections cut by those lengths) returns the same three byte
    sequences. *)
Theorem assemble_parse_roundtrip (P : Platform) (publicKeyDer signature payload buf : Buffer) :
  assemble P publicKeyDer (length publicKeyDer) signature (length signature) payload
    = inr buf →
  Spec.parse buf = Some (publicKeyDer, signature, payload).
Proof.
  intros H. apply assemble_inv in H as (-> & Hpk & Hsig).
  unfold Spec.parse.
  rewrite bool_decide_eq_true_2 by done.
  rewrite container_publicKeyLength, container_signatureLength by done.
  cbn [fmap option_fmap option_map mbind option_bind]. rewrite !Nat2N.id.
  rewrite bool_decide_eq_true_2 by (rewrite container_length; lia).
  by rewrite container_publicKey, container_signature, container_payload.
Qed.

Lemma assemble_parse_roundtrip_witness :
  assemble Example.sound [Byte.x30; Byte.x82] 2 [Byte.xa1] 1 [Byte.x50; Byte.x4b]
    = inr (container [Byte.x30; Byte.x82] [Byte.xa1] [Byte.x50; Byte.x4b])
  ∧ Spec.parse (container [Byte.x30; Byte.x82] [Byte.xa1] [Byte.x50; Byte.x4b])
    = Some ([Byte.x30; Byte.x82], [Byte.xa1], [Byte.x50; Byte.x4b]).
Proof.
  split; [vm_compute; reflexivity|].
  apply (assemble_parse_roundtrip Example.sound). vm_compute. reflexivity.
Defined.

(** ** Successful runs of [pack] *)

Section PackSuccess.
Context (P : Platform).

(** What a successful run has done: the key was loaded from the key
    file, the payload came from [read_zip], the signature is over that
    payload, and the file written is their container. *)
Lemma pack_success options w w' :
  pack P options w = (inr tt, w') →
  ∃ pem key zip sig evk wz evs,
    fs w !! PackOptions.privateKeyFile options = Some (File pem)
    ∧ crypto_createPrivateKey P pem = Some key
    ∧ read_zip P (PackOptions.sourcePath options) (logs evk w) = (inr zip, wz)
    ∧ trace wz = trace w ++ evs
    ∧ crypto_sign P "RSA-SHA1" key zip = Some sig
    ∧ N.of_nat (length (crypto_export P (crypto_createPublicKey P key) "der" "spki"))
        ≤ 4294967295
    ∧ N.of_nat (length sig) ≤ 4294967295
    ∧ Forall quiet evs
    ∧ trace w' = trace w ++ evs
        ++ [EvSign "RSA-SHA1" zip;
            EvWriteFile (PackOptions.outFile options)
              (container (crypto_export P (crypto_createPublicKey P key) "der" "spki")
                 sig zip)]
    ∧ fs w' = <[PackOptions.outFile options :=
                  File (container (crypto_export P (crypto_createPublicKey P key)
                                     "der" "spki") sig zip)]> (fs wz).
Proof.
  intros Hrun. apply pack_run in Hrun as [(e & evs & ? & _)|Hrun]; [done|].
  destruct Hrun as (pem & key & zip & sig & evk & wz & evs & Hk & Hkey & _
                    & Hz & Hsig & Hpk & Hsg & Htr & Hq & _ & Hw).
  exists pem, key, zip, sig, evk, wz, evs. split_and!; try done.
  - apply write_file_trace in Hw. rewrite Hw. world_simpl.
    by rewrite Htr, <- !app_assoc.
  - by apply write_file_ok in Hw.
Qed.

End PackSuccess.

(** C1. In every successful run of [pack] the bytes written to the output
    file are 16 + len(publicKeyDER) + len(signature) + len(payload) long,
    hold at offset 8 the little-endian 32-bit length of the public key and
    at offset 12 that of the signature, and continue at offset 16 with
    the public key, then the signature, then the payload; the public key
    is the SPKI-DER export of the key loaded from the key file and the
    signature is the one made with that key over the payload. *)
Theorem pack_output_layout (P : Platform) (options : PackOptions.t) (w w' : World) :
  pack P options w = (inr tt, w') →
  ∃ (publicKeyDer signature payload bytes : Buffer),
    last (trace w') = Some (EvWriteFile (PackOptions.outFile options) bytes)
    ∧ fs w' !! PackOptions.outFile options = Some (File bytes)
    ∧ length bytes
      = (16 + length publicKeyDer + length signature + length payload)%nat
    ∧ Buf.readUint32LE bytes 8 = Some (N.of_nat (length publicKeyDer))
    ∧ Buf.readUint32LE bytes 12 = Some (N.of_nat (length signature))
    ∧ Buf.slice bytes 16 (length publicKeyDer) = publicKeyDer
    ∧ Buf.slice bytes (16 + length publicKeyDer) (length signature) = signature
    ∧ drop (16 + length publicKeyDer + length signature) bytes = payload
    ∧ ∃ pem key,
        fs w !! PackOptions.privateKeyFile options = Some (File pem)
        ∧ crypto_createPrivateKey P pem = Some key
        ∧ publicKeyDer = crypto_export P (crypto_createPublicKey P key) "der" "spki"
        ∧ crypto_sign P "RSA-SHA1" key payload = Some signature.
Proof.
  intros Hrun.
  apply pack_success in Hrun
    as (pem & key & zip & sig & evk & wz & evs & Hk & Hkey & _ & _ & Hsig
        & Hpk & Hsg & _ & Htr & Hfs).
  eexists _, sig, zip, _. split_and!.
  - rewrite Htr, !last_app. reflexivity.
  - rewrite Hfs. apply lookup_insert_eq.
  - apply container_length.
  - by apply container_publicKeyLength.
  - by apply container_signatureLength.
  - apply container_publicKey.
  - apply container_signature.
  - apply container_payload.
  - by exists pem, key.
Qed.

Lemma pack_output_layout_witness :
  pack Example.sound Example.pack_file Example.world
    = (inr tt, (pack Example.sound Example.pack_file Example.world).2)
  ∧ ∃ (publicKeyDer signature payload bytes : Buffer),
      fs (pack Example.sound Example.pack_file Example.world).2 !! "ext.ext"
        = Some (File bytes)
      ∧ length bytes
        = (16 + length publicKeyDer + length signature + length payload)%nat.
Proof.
  split; [vm_compute; reflexivity|].
  destruct (pack_output_layout Example.sound Example.pack_file Example.world
              (pack Example.sound Example.pack_file Example.world).2)
    as (pk & sig & zip & bytes & _ & Hfs & Hlen & _).
  - vm_compute. reflexivity.
  - exists pk, sig, zip, bytes. split; [exact Hfs | exact Hlen].
Defined.

(** C9. Every container that [pack] produces begins with the magic bytes
    0x45 0x58 0x54 0x38 ("EXT8") and the version 2 as the little-endian
    bytes 0x02 0x00 0x00 0x00, whatever the inputs. *)
Theorem pack_magic_and_version (P : Platform) (options : PackOptions.t) (w w' : World) :
  pack P options w = (inr tt, w') →
  ∃ bytes,
    fs w' !! PackOptions.outFile options = Some (File bytes)
    ∧ take 8 bytes
      = [Byte.x45; Byte.x58; Byte.x54; Byte.x38; Byte.x02; Byte.x00; Byte.x00; Byte.x00].
Proof.
  intros Hrun.
  apply pack_success in Hrun
    as (pem & key & zip & sig & evk & wz & evs & _ & _ & _ & _ & _ & _ & _ & _ & _ & Hfs).
  eexists. split.
  - rewrite Hfs. apply lookup_insert_eq.
  - apply container_magic.
Qed.

Lemma pack_magic_and_version_witness :
  pack Example.sound Example.pack_dir Example.world
    = (inr tt, (pack Example.sound Example.pack_dir Example.world).2)
  ∧ ∃ bytes,
      fs (pack Example.sound Example.pack_dir Example.world).2 !! "ext.ext"
        = Some (File bytes)
      ∧ take 8 bytes
        = [Byte.x45; Byte.x58; Byte.x54; Byte.x38; Byte.x02; Byte.x00; Byte.x00; Byte.x00].
Proof.
  split; [vm_compute; reflexivity|].
  apply (pack_magic_and_version Example.sound Example.pack_dir Example.world).
  vm_compute. reflexivity.
Defined.

(** ** Every run of [pack]: what is signed, what is written *)

Lemma quiet_not_sign evs alg data : Forall quiet evs → EvSign alg data ∉ evs.
Proof. intros Hq Hin. by apply (proj1 (Forall_forall _ _) Hq) in Hin. Qed.

Lemma quiet_not_write evs path data : Forall quiet evs → EvWriteFile path data ∉ evs.
Proof. intros Hq Hin. by apply (proj1 (Forall_forall _ _) Hq) in Hin. Qed.

Lemma no_write_not_write evs path data :
  Forall no_write evs → EvWriteFile path data ∉ evs.
Proof. intros Hq Hin. by apply (proj1 (Forall_forall _ _) Hq) in Hin. Qed.

(** C2. In every run of [pack], successful or not, the bytes handed to
    the signer and the payload section of the buffer handed to the final
    write are the same bytes, namely the payload that the "read zip" step
    returned: nothing between the two re-derives or changes them. *)
Theorem pack_signs_what_it_writes (P : Platform) (options : PackOptions.t)
    (w : World) (r : res unit) (w' : World) :
  pack P options w = (r, w') →
  ∀ alg signed path written,
    EvSign alg signed ∈ new_events w w' →
    EvWriteFile path written ∈ new_events w w' →
    ∃ publicKeyDer signature wk wz,
      read_zip P (PackOptions.sourcePath options) wk = (inr signed, wz)
      ∧ written = container publicKeyDer signature signed
      ∧ drop (16 + length publicKeyDer + length signature) written = signed.
Proof.
  intros Hrun alg signed path written Hs Hw.
  apply pack_run in Hrun as [(e & evs & _ & Htr & Hnw & _)|Hrun].
  { rewrite (new_events_app _ _ _ Htr) in Hw.
    by apply no_write_not_write in Hw. }
  destruct Hrun as (pem & key & zip & sig & evk & wz & evs & _ & _ & _
                    & Hz & _ & _ & _ & Htr & Hq & _ & Hwr).
  apply write_file_trace in Hwr. world_simpl.
  rewrite Htr, <- !app_assoc in Hwr.
  rewrite (new_events_app _ _ _ Hwr) in Hs, Hw.
  rewrite !elem_of_app, !list_elem_of_singleton in Hs, Hw.
  destruct Hs as [Hs|[Hs|Hs]]; [by apply quiet_not_sign in Hs| |done].
  destruct Hw as [Hw|[Hw|Hw]]; [by apply quiet_not_write in Hw|done|].
  simplify_eq. eexists _, sig, _, wz. split_and!; [done|done|].
  apply container_payload.
Qed.

Lemma pack_signs_what_it_writes_witness :
  pack Example.disk_full Example.pack_file Example.world
    = (inl (SystemError "ENOSPC" "ext.ext"),
       (pack Example.disk_full Example.pack_file Example.world).2)
  ∧ ∃ publicKeyDer signature,
      [Byte.x45; Byte.x58; Byte.x54; Byte.x38; Byte.x02; Byte.x00;
       Byte.x00; Byte.x00; Byte.x03; Byte.x00; Byte.x00; Byte.x00;
       Byte.x04; Byte.x00; Byte.x00; Byte.x00; Byte.x03; Byte.x02;
       Byte.x01; Byte.x01; Byte.x02; Byte.x50; Byte.x4b; Byte.x50;
       Byte.x4b; Byte.x05; Byte.x06]
      = container publicKeyDer signature [Byte.x50; Byte.x4b; Byte.x05; Byte.x06].
Proof.
  split; [vm_compute; reflexivity|].
  destruct (pack_signs_what_it_writes Example.disk_full Example.pack_file Example.world
              (inl (SystemError "ENOSPC" "ext.ext"))
              (pack Example.disk_full Example.pack_file Example.world).2)
    with (alg := "RSA-SHA1") (signed := [Byte.x50; Byte.x4b; Byte.x05; Byte.x06])
         (path := "ext.ext")
         (written := [Byte.x45; Byte.x58; Byte.x54; Byte.x38; Byte.x02; Byte.x00;
                      Byte.x00; Byte.x00; Byte.x03; Byte.x00; Byte.x00; Byte.x00;
                      Byte.x04; Byte.x00; Byte.x00; Byte.x00; Byte.x03; Byte.x02;
                      Byte.x01; Byte.x01; Byte.x02; Byte.x50; Byte.x4b; Byte.x50;
                      Byte.x4b; Byte.x05; Byte.x06])
    as (pk & sig & _ & _ & _ & Hc & _).
  - vm_compute. reflexivity.
  - vm_compute. do 9 apply list_elem_of_further. apply list_elem_of_here.
  - vm_compute. do 10 apply list_elem_of_further. apply list_elem_of_here.
  - exists pk, sig. exact Hc.
Defined.

(** ** Failed runs of [pack] and the output file *)

Lemma scratch_frame_vacant (P : Platform) (w w' : World) :
  scratch_vacant P w → scratch_frame P w w' → fs w' = fs w.
Proof.
  intros Hvac [->|[Hfree ->]]; [done|].
  apply filter_outside_vacant; auto.
Qed.


(** The scratch directory is the one place where a failed run can leave
    something: when its removal breaks off, a path inside it that was
    absent before the run holds the staged archive after it. *)
Lemma pack_stuck_scratch_keeps_staged_file :
  ∃ e w',
    pack Example.scratch_stuck Scene.pack_into_scratch Scene.world = (inl e, w')
    ∧ e = SystemError "EBUSY" "/tmp/a1b2c0"
    ∧ fs Scene.world !! "/tmp/a1b2c0/extension.zip" = None
    ∧ fs w' !! "/tmp/a1b2c0/extension.zip"
      = Some (File [Byte.x50; Byte.x4b; Byte.x05]).
Proof. eexists _, _. split_and!; vm_compute; reflexivity. Qed.



(** ** Validation comes first *)

(** C5. [pack] validates before it does any work: when the key file is
    missing, or the source path is missing, or the output file exists and
    [force] is off, the run fails with the matching error, and all it has
    done is to probe the file system with [existsSync]: no key is loaded,
    nothing is archived, signed or written, and the file system is as it
    was. A missing source path yields the "does not exist" error for the
    source. *)
Theorem pack_validates_first (P : Platform) (options : PackOptions.t) (w : World) :
  fs w !! PackOptions.privateKeyFile options = None
  ∨ fs w !! PackOptions.sourcePath options = None
  ∨ (default false (PackOptions.force options) = false
     ∧ is_Some (fs w !! PackOptions.outFile options)) →
  ∃ e evs,
    pack P options w = (inl e, logs evs w)
    ∧ Forall Spec.is_probe evs
    ∧ (fs w !! PackOptions.privateKeyFile options = None →
       e = Spec.NotFound_key (PackOptions.privateKeyFile options))
    ∧ (is_Some (fs w !! PackOptions.privateKeyFile options) →
       fs w !! PackOptions.sourcePath options = None →
       e = Spec.NotFound_source (PackOptions.sourcePath options))
    ∧ (is_Some (fs w !! PackOptions.privateKeyFile options) →
       is_Some (fs w !! PackOptions.sourcePath options) →
       e = Spec.AlreadyExists_output (PackOptions.outFile options)).
Proof.
  destruct options as [pkf src out force].
  cbn [PackOptions.privateKeyFile PackOptions.sourcePath PackOptions.outFile
       PackOptions.force].
  intros Hbad. unfold pack. unfold_monad. unfold existsSync.
  cbn [PackOptions.privateKeyFile PackOptions.sourcePath PackOptions.outFile
       PackOptions.force].
  world_simpl. rewrite !is_Some_bool.
  destruct (fs w !! pkf) as [nk|] eqn:Hk; cbn [negb]; world_simpl.
  2:{ eexists _, [EvExists pkf]. split_and!; [same_world| | | |].
      - repeat constructor. by eexists.
      - done.
      - by intros [? ?].
      - by intros [? ?]. }
  rewrite !is_Some_bool.
  destruct (fs w !! src) as [ns|] eqn:Hs; cbn [negb]; world_simpl.
  2:{ eexists _, [EvExists pkf; EvExists src]. split_and!; [same_world| | | |].
      - repeat constructor; by eexists.
      - done.
      - done.
      - by intros _ [? ?]. }
  destruct Hbad as [?|[?|[Hforce [no Ho]]]]; [done|done|].
  rewrite Hforce. cbn [negb]. world_simpl. rewrite is_Some_bool, Ho.
  eexists _, [EvExists pkf; EvExists src; EvExists out].
  split_and!; [same_world| | | |].
  - repeat constructor; by eexists.
  - done.
  - done.
  - done.
Qed.

Lemma pack_validates_first_witness :
  (fs Example.world !! "private.pem" = None
   ∨ fs Example.world !! "nowhere" = None
   ∨ (default false None = false ∧ is_Some (fs Example.world !! "ext.ext")))
  ∧ ∃ evs,
      pack Example.sound Example.pack_missing Example.world
        = (inl (Spec.NotFound_source "nowhere"), logs evs Example.world)
      ∧ Forall Spec.is_probe evs.
Proof.
  assert (fs Example.world !! "private.pem" = None
          ∨ fs Example.world !! "nowhere" = None
          ∨ (default false None = false ∧ is_Some (fs Example.world !! "ext.ext")))
    as Hbad by (right; left; vm_compute; reflexivity).
  split; [exact Hbad|].
  destruct (pack_validates_first Example.sound Example.pack_missing Example.world Hbad)
    as (e & evs & Hrun & Hprobe & _ & Hsrc & _).
  exists evs. split; [|exact Hprobe].
  rewrite Hrun. f_equal. f_equal. apply Hsrc.
  - vm_compute. eexists. reflexivity.
  - vm_compute. reflexivity.
Defined.

(** ** Key generation refuses to overwrite *)

Lemma keygen_refused (P : Platform) (options : KeygenOptions.t) (w : World) :
  default false (KeygenOptions.force options) = false →
  is_Some (fs w !! KeygenOptions.privateKeyFile options) →
  keygen P options w
  = (inl (Spec.AlreadyExists_key (KeygenOptions.privateKeyFile options)),
     logs [EvExists (KeygenOptions.privateKeyFile options)] w).
Proof.
  intros Hforce [n Hn].
  unfold keygen. unfold_monad. unfold existsSync.
  rewrite Hforce. cbn [negb]. by rewrite is_Some_bool, Hn.
Qed.

Lemma keygenSync_refused (P : Platform) (options : KeygenOptions.t) (w : World) :
  default false (KeygenOptions.force options) = false →
  is_Some (fs w !! KeygenOptions.privateKeyFile options) →
  keygenSync P options w
  = (inl (Spec.AlreadyExists_key (KeygenOptions.privateKeyFile options)),
     logs [EvExists (KeygenOptions.privateKeyFile options)] w).
Proof.
  intros Hforce [n Hn].
  unfold keygenSync. unfold_monad. unfold existsSync.
  rewrite Hforce. cbn [negb]. by rewrite is_Some_bool, Hn.
Qed.

(** C4. Where something already exists at the key path and [force] is
    off (false or absent), [keygen] and [keygenSync] fail with the
    "already exists" error; all they have done is the one [existsSync]
    probe: no key pair was generated, no entropy drawn, and the file
    system, the existing key file included, is untouched. *)
Theorem keygen_refuses_existing_key (P : Platform) (options : KeygenOptions.t) (w : World) :
  default false (KeygenOptions.force options) = false →
  is_Some (fs w !! KeygenOptions.privateKeyFile options) →
  keygen P options w
    = (inl (Spec.AlreadyExists_key (KeygenOptions.privateKeyFile options)),
       logs [EvExists (KeygenOptions.privateKeyFile options)] w)
  ∧ keygenSync P options w
    = (inl (Spec.AlreadyExists_key (KeygenOptions.privateKeyFile options)),
       logs [EvExists (KeygenOptions.privateKeyFile options)] w).
Proof.
  intros Hforce Hn. split.
  - by apply keygen_refused.
  - by apply keygenSync_refused.
Qed.

Lemma keygen_refuses_existing_key_witness :
  default false (KeygenOptions.force Example.keygen_again) = false
  ∧ is_Some (fs Example.world !! "private.pem")
  ∧ keygen Example.sound Example.keygen_again Example.world
    = (inl (Spec.AlreadyExists_key "private.pem"),
       logs [EvExists "private.pem"] Example.world).
Proof.
  assert (is_Some (fs Example.world !! "private.pem")) as Hex
    by (vm_compute; eexists; reflexivity).
  split; [reflexivity|]. split; [exact Hex|].
  apply (keygen_refuses_existing_key Example.sound Example.keygen_again Example.world
           eq_refl Hex).
Defined.

(** ** The payload of a regular file *)

(** Whatever the bytes of the source file are, [pack] goes through when
    the key loads, the signer signs, the sizes fit and the write is not
    refused: the content of the file is never a reason to fail. *)
Lemma pack_file_succeeds (P : Platform) (options : PackOptions.t) (w : World)
    (pem : Buffer) (key : PrivateKey P) (data sig : Buffer) :
  fs w !! PackOptions.privateKeyFile options = Some (File pem) →
  fs w !! PackOptions.sourcePath options = Some (File data) →
  default false (PackOptions.force options) = true
    ∨ fs w !! PackOptions.outFile options = None →
  read_fault P (PackOptions.privateKeyFile options) = false →
  read_fault P (PackOptions.sourcePath options) = false →
  crypto_createPrivateKey P pem = Some key →
  crypto_sign P "RSA-SHA1" key data = Some sig →
  N.of_nat (16 + length (crypto_export P (crypto_createPublicKey P key) "der" "spki")
            + length sig + length data) ≤ kMaxLength P →
  N.of_nat (length (crypto_export P (crypto_createPublicKey P key) "der" "spki"))
    ≤ 4294967295 →
  N.of_nat (length sig) ≤ 4294967295 →
  fs w !! PackOptions.outFile options ≠ Some Directory →
  fs w !! PackOptions.outFile options ≠ Some Socket →
  write_fault P (PackOptions.outFile options)
    (container (crypto_export P (crypto_createPublicKey P key) "der" "spki") sig data)
    = WriteOk →
  ∃ w',
    pack P options w = (inr tt, w')
    ∧ fs w' = <[PackOptions.outFile options :=
                  File (container (crypto_export P (crypto_createPublicKey P key)
                                     "der" "spki") sig data)]> (fs w).
Proof.
  destruct options as [pkf src out force].
  cbn [PackOptions.privateKeyFile PackOptions.sourcePath PackOptions.outFile
       PackOptions.force].
  intros Hk Hs Hout Hrk Hrs Hkey Hsig Hmax Hpk Hsg Hd Hso Hok.
  assert (∀ evs, ∃ w',
            (pem ← readFileSync P pkf;
             privateKey ← createPrivateKey P pem;
             publicKey ← createPublicKey P privateKey;
             publicKeyDer ← export P publicKey "der" "spki";
             zip ← read_zip P src;
             signature ← Sign_sign P
                           (Sign_end (Sign_update (createSign "RSA-SHA1") zip)) privateKey;
             buffer ← lift (assemble P publicKeyDer (length publicKeyDer)
                              signature (length signature) zip);
             writeFile P out buffer) (logs evs w) = (inr tt, w')
            ∧ fs w' = <[out := File (container
                          (crypto_export P (crypto_createPublicKey P key) "der" "spki")
                          sig data)]> (fs w)) as Hbody.
  { intros evs. unfold_monad.
    unfold readFileSync, read_file, createPrivateKey, createPublicKey, export,
      Sign_sign, createSign, Sign_update, Sign_end.
    cbn [algorithm pending app]. world_simpl.
    rewrite Hk, Hrk, Hkey. cbn [of_option].
    rewrite (read_zip_file P src data) by exact Hs. rewrite Hrs.
    world_simpl. rewrite Hsig. cbn [of_option].
    rewrite assemble_ok by done.
    unfold writeFile, write_file. world_simpl. rewrite Hok.
    destruct (fs w !! out) as [[| |]|]; try done; eexists; split; reflexivity. }
  unfold pack. unfold_monad. unfold existsSync.
  cbn [PackOptions.privateKeyFile PackOptions.sourcePath PackOptions.outFile
       PackOptions.force].
  world_simpl. rewrite !is_Some_bool, Hk. cbn [negb]. world_simpl.
  rewrite !is_Some_bool, Hs. cbn [negb]. world_simpl.
  destruct (default false force); cbn [negb]; world_simpl.
  - destruct (Hbody [EvExists pkf; EvExists src]) as (w' & Hrun & Hfs).
    exists w'. split; [|done]. refine (eq_trans _ Hrun).
    f_equal. same_world.
  - destruct Hout as [?|Hout]; [done|]. rewrite is_Some_bool, Hout.
    destruct (Hbody [EvExists pkf; EvExists src; EvExists out]) as (w' & Hrun & Hfs).
    exists w'. split; [|done]. refine (eq_trans _ Hrun).
    f_equal. same_world.
Qed.

(** C8. When the source path is a regular file, a successful [pack] uses
    its bytes as they are: the payload section of the container written
    is the content of the source file, and between reading the file and
    signing it the run does nothing else: the bytes are not inspected. *)
Theorem pack_file_payload_verbatim (P : Platform) (options : PackOptions.t)
    (w w' : World) (data : Buffer) :
  fs w !! PackOptions.sourcePath options = Some (File data) →
  pack P options w = (inr tt, w') →
  ∃ publicKeyDer signature evs,
    fs w' !! PackOptions.outFile options
      = Some (File (container publicKeyDer signature data))
    ∧ drop (16 + length publicKeyDer + length signature)
        (container publicKeyDer signature data) = data
    ∧ new_events w w'
      = evs ++ [EvStat (PackOptions.sourcePath options);
                EvReadFile (PackOptions.sourcePath options);
                EvSign "RSA-SHA1" data;
                EvWriteFile (PackOptions.outFile options)
                  (container publicKeyDer signature data)].
Proof.
  intros Hsrc Hrun.
  apply pack_success in Hrun
    as (pem & key & zip & sig & evk & wz & evs & _ & _ & Hz & Htz & _ & _ & _ & _
        & Htr & Hfs).
  rewrite (read_zip_file P _ data) in Hz by done.
  destruct (read_fault P (PackOptions.sourcePath options)); [done|].
  injection Hz as <- <-. world_simpl.
  rewrite <- app_assoc in Htz. apply app_inv_head in Htz as <-.
  eexists _, sig, evk. split_and!.
  - rewrite Hfs. apply lookup_insert_eq.
  - apply container_payload.
  - rewrite (new_events_app _ _ _ Htr). by rewrite <- app_assoc.
Qed.

Lemma pack_file_payload_verbatim_witness :
  fs Example.world !! "ext.zip" = Some (File [Byte.x50; Byte.x4b; Byte.x05; Byte.x06])
  ∧ pack Example.sound Example.pack_file Example.world
    = (inr tt, (pack Example.sound Example.pack_file Example.world).2)
  ∧ ∃ publicKeyDer signature,
      fs (pack Example.sound Example.pack_file Example.world).2 !! "ext.ext"
      = Some (File (container publicKeyDer signature
                      [Byte.x50; Byte.x4b; Byte.x05; Byte.x06])).
Proof.
  split; [vm_compute; reflexivity|]. split; [vm_compute; reflexivity|].
  destruct (pack_file_payload_verbatim Example.sound Example.pack_file Example.world
              (pack Example.sound Example.pack_file Example.world).2
              [Byte.x50; Byte.x4b; Byte.x05; Byte.x06])
    as (pk & sig & evs & Hfs & _).
  - vm_compute. reflexivity.
  - vm_compute. reflexivity.
  - exists pk, sig. exact Hfs.
Defined.

(** ** The scratch directory *)

(** C7, as stated, fails: the removal of the scratch directory is itself
    a call that can fail, and nothing retries it. Where it breaks off
    with EBUSY the step ends with that error and the directory, made
    under a free name, is still there with the staged archive. *)
Lemma read_zip_scratch_left_behind :
  ¬ (∀ (P : Platform) (src : string) (w : World) (r : res Buffer) (w' : World),
       scratch_vacant P w →
       fs w !! src = Some Directory →
       fs w !! scratch P w = None →
       read_zip P src w = (r, w') →
       ∀ path, path = scratch P w ∨ under P (scratch P w) path = true →
               fs w' !! path = None).
Proof.
  intros H.
  specialize (H Example.scratch_stuck "ext" Example.world
                (inl (SystemError "EBUSY" "/tmp/a1b2c0"))
                (read_zip Example.scratch_stuck "ext" Example.world).2).
  assert (scratch_vacant Example.scratch_stuck Example.world) as Hvac.
  { intros _. apply (bool_decide_unpack _). vm_compute. reflexivity. }
  specialize (H Hvac).
  assert (fs (read_zip Example.scratch_stuck "ext" Example.world).2 !! "/tmp/a1b2c0"
          = None) as Hgone.
  { apply H; [vm_compute; reflexivity..|]. left. vm_compute. reflexivity. }
  vm_compute in Hgone. discriminate Hgone.
Qed.

(** C7, amended. When the source is a directory, the "read zip" step
    stages the archive in a scratch directory that did not exist before
    the call and that [mkdtemp] makes for it, and on every exit, by a
    payload or by an error of [createZip] or of the read, its last call
    is the removal of that directory. When the removal goes through,
    neither the directory nor anything beneath it exists; when the
    removal itself fails, the step fails with the error of the removal
    and the directory is still there. When [mkdtemp] fails, no scratch
    directory is made, nothing is removed and the file system is as it
    was. *)
Theorem read_zip_scratch_removed (P : Platform) (src : string)
    (w : World) (r : res Buffer) (w' : World) :
  fs w !! src = Some Directory →
  read_zip P src w = (r, w') →
  ((is_Some (mkdtemp_fault P (os_tmpdir P +:+ path_sep P))
    ∨ is_Some (fs w !! scratch P w))
   ∧ (∃ code path, r = inl (SystemError code path))
   ∧ (EvRm (scratch P w) ∉ new_events w w')
   ∧ fs w' = fs w)
  ∨ (mkdtemp_fault P (os_tmpdir P +:+ path_sep P) = None
     ∧ fs w !! scratch P w = None
     ∧ EvMkdtemp (scratch P w) ∈ new_events w w'
     ∧ last (new_events w w') = Some (EvRm (scratch P w))
     ∧ match rm_fault P (scratch P w) with
       | None =>
           ∀ path, path = scratch P w ∨ under P (scratch P w) path = true →
                   fs w' !! path = None
       | Some code =>
           r = inl (SystemError code (scratch P w))
           ∧ is_Some (fs w' !! scratch P w)
       end).
Proof.
  intros Hsrc Hrun.
  apply (read_zip_directory P _ _ _ _ Hsrc) in Hrun
    as [(Hfail & Hr & Hfs & Htr)|(Hmk & Hfree & (evs & Htr & _) & Hfs)].
  { left. split_and!; try done.
    rewrite (new_events_app _ _ _ Htr), !elem_of_cons, elem_of_nil. naive_solver. }
  right. rewrite (new_events_app _ _ _ Htr). split_and!.
  - done.
  - done.
  - rewrite elem_of_app, !elem_of_cons. auto.
  - by rewrite !last_app.
  - destruct (rm_fault P (scratch P w)) as [code|].
    + by destruct Hfs as (-> & ? & _).
    + intros path Hpath. rewrite Hfs. by apply filter_outside_gone.
Qed.

Lemma read_zip_scratch_removed_witness :
  fs Example.world !! "ext" = Some Directory
  ∧ read_zip Example.broken_archive "ext" Example.world
    = (inl (ArchiverError "finalize"),
       (read_zip Example.broken_archive "ext" Example.world).2)
  ∧ fs (read_zip Example.broken_archive "ext" Example.world).2
      !! "/tmp/a1b2c0/extension.zip" = None
  ∧ fs (read_zip Example.broken_archive "ext" Example.world).2 !! "/tmp/a1b2c0" = None.
Proof.
  split; [vm_compute; reflexivity|]. split; [vm_compute; reflexivity|].
  destruct (read_zip_scratch_removed Example.broken_archive "ext" Example.world
              (inl (ArchiverError "finalize"))
              (read_zip Example.broken_archive "ext" Example.world).2)
    as [([[x Hx]|[x Hx]] & _)|(_ & _ & _ & _ & Hgone)].
  - vm_compute. reflexivity.
  - vm_compute. reflexivity.
  - vm_compute in Hx. discriminate Hx.
  - vm_compute in Hx. discriminate Hx.
  - change (rm_fault Example.broken_archive
              (scratch Example.broken_archive Example.world)) with (@None string)
      in Hgone.
    split; apply Hgone.
    + right. vm_compute. reflexivity.
    + left. vm_compute. reflexivity.
Defined.

(** ** The two key generators *)

Section Keygen.
Context (P : Platform).


(** [keygen] once the existence check has passed. *)
Lemma keygen_run options w r w' :
  keygen P options w = (r, w') →
  (default false (KeygenOptions.force options) = false
   ∧ is_Some (fs w !! KeygenOptions.privateKeyFile options)
   ∧ r = inl (Spec.AlreadyExists_key (KeygenOptions.privateKeyFile options)))
  ∨ (¬ (default false (KeygenOptions.force options) = false
        ∧ is_Some (fs w !! KeygenOptions.privateKeyFile options))
     ∧ ∃ evs,
         Forall Spec.is_probe evs
         ∧ match crypto_generate P "rsa" RSA_2048_PKCS8_PEM (entropy w) with
           | None =>
               r = inl (CryptoError "generateKeyPair") ∧ fs w' = fs w
           | Some key =>
               write_file P (KeygenOptions.privateKeyFile options)
                 (utf8 (KeyPair.privateKey key))
                 (draw (logs (evs ++ [EvGenerateKeyPair "rsa" RSA_2048_PKCS8_PEM]) w))
               = (r, w')
           end).
Proof.
  unfold keygen. unfold_monad. unfold generateKeyPair, existsSync, writeFile.
  destruct (default false (KeygenOptions.force options)); cbn [negb]; world_simpl.
  - intros Hrun. right. split; [by intros [? _]|]. exists []. split; [constructor|].
    revert Hrun.
    destruct (crypto_generate P "rsa" RSA_2048_PKCS8_PEM (entropy w)) as [[pub priv]|];
      world_simpl; intros Hrun.
    + exact Hrun.
    + injection Hrun as <- <-. split; reflexivity.
  - rewrite is_Some_bool.
    destruct (fs w !! KeygenOptions.privateKeyFile options) as [n|] eqn:Hn.
    + intros [= <- <-]. left. eauto.
    + intros Hrun. right. split; [by intros [_ [? ?]]|].
      exists [EvExists (KeygenOptions.privateKeyFile options)].
      split; [repeat constructor; by eexists|].
      revert Hrun. world_simpl.
      destruct (crypto_generate P "rsa" RSA_2048_PKCS8_PEM (entropy w)) as [[pub priv]|];
        world_simpl; intros Hrun.
      * refine (eq_trans _ Hrun). f_equal. unfold draw, log, logs; world_simpl.
        by rewrite <- app_assoc.
      * injection Hrun as <- <-. split; reflexivity.
Qed.

(** A second [keygen] on the path of a first, successful one, without
    [force], is refused and leaves the first key file as it is. *)
Lemma keygen_twice options w w1 :
  default false (KeygenOptions.force options) = false →
  keygen P options w = (inr tt, w1) →
  keygen P options w1
  = (inl (Spec.AlreadyExists_key (KeygenOptions.privateKeyFile options)),
     logs [EvExists (KeygenOptions.privateKeyFile options)] w1).
Proof.
  intros Hforce Hrun. apply keygen_refused; [done|].
  apply keygen_run in Hrun as [(_ & _ & ?)|(_ & evs & _ & Hrun)]; [done|].
  destruct (crypto_generate P "rsa" RSA_2048_PKCS8_PEM (entropy w)) as [key|];
    [|by destruct Hrun].
  apply write_file_ok in Hrun. rewrite Hrun, lookup_insert_eq. eauto.
Qed.

End Keygen.



(** * Further properties of the code *)

(** ** Strings *)

Lemma length_append (a b : string) :
  String.length (a +:+ b) = (String.length a + String.length b)%nat.
Proof.
  induction a as [|c a IH]; [done|].
  rewrite append_cons. simpl. by rewrite IH.
Qed.

Lemma substring_all (s : string) : String.substring 0 (String.length s) s = s.
Proof. induction s as [|c s IH]; simpl; [done | by rewrite IH]. Qed.

Lemma substring_append_l (a b : string) :
  String.substring 0 (String.length a) (a +:+ b) = a.
Proof.
  induction a as [|c a IH].
  - by destruct b.
  - rewrite append_cons. simpl. by rewrite IH.
Qed.

Lemma substring_append_r (a b : string) (k : nat) :
  String.substring (String.length a) k (a +:+ b) = String.substring 0 k b.
Proof.
  induction a as [|c a IH]; [done|].
  rewrite append_cons. simpl. apply IH.
Qed.

Lemma substring_split (s : string) (n : nat) :
  (n ≤ String.length s)%nat →
  String.substring 0 n s +:+ String.substring n (String.length s - n) s = s.
Proof.
  revert n. induction s as [|c s IH]; intros n Hn.
  - simpl in Hn. by replace n with 0%nat by lia.
  - destruct n as [|n].
    + simpl. by rewrite substring_all.
    + simpl in *. rewrite append_cons. f_equal. apply IH. lia.
Qed.

Lemma endsWith_append (a suffix : string) : endsWith (a +:+ suffix) suffix = true.
Proof.
  unfold endsWith. rewrite length_append.
  apply andb_true_iff. split.
  - apply Nat.leb_le. lia.
  - replace (String.length a + String.length suffix - String.length suffix)%nat
      with (String.length a) by lia.
    rewrite substring_append_r, substring_all. apply String.eqb_refl.
Qed.

Lemma endsWith_split (s suffix : string) :
  endsWith s suffix = true →
  s = String.substring 0 (String.length s - String.length suffix) s +:+ suffix.
Proof.
  unfold endsWith. intros [Hle Heq]%andb_true_iff.
  apply Nat.leb_le in Hle. apply String.eqb_eq in Heq.
  rewrite <- (substring_split s (String.length s - String.length suffix)) at 1 by lia.
  f_equal. rewrite <- Heq at 3. f_equal. lia.
Qed.


Lemma append_inj (a a' b b' : string) :
  String.length a = String.length a' → a +:+ b = a' +:+ b' → a = a' ∧ b = b'.
Proof.
  revert a'. induction a as [|x a IH]; intros [|x' a'] Hlen; try done.
  simpl in Hlen. rewrite !append_cons. intros [= -> H].
  destruct (IH a') as [-> ->]; [lia|done|done].
Qed.

(** A name that ends in a separator does not end in ".zip". *)
Lemma endsWith_zip_sep (s sep : string) :
  sep = posix_sep ∨ sep = win32_sep → endsWith (s +:+ sep) ".zip" = false.
Proof.
  intros Hsep. destruct (endsWith (s +:+ sep) ".zip") eqn:E; [|done].
  apply endsWith_split in E.
  set (t := String.substring _ _ _) in E. clearbody t.
  replace (t +:+ ".zip") with ((t +:+ ".zi") +:+ "p") in E
    by (by rewrite append_assoc).
  apply append_inj in E as [_ E].
  - destruct Hsep; subst; discriminate E.
  - apply (f_equal String.length) in E. rewrite !length_append in *.
    destruct Hsep; subst; unfold posix_sep, win32_sep in E; simpl in *; lia.
Qed.

(** ** The default output file *)

Lemma getOutFile_zip_name (s : string) :
  s ≠ EmptyString → getOutFile None (s +:+ ".zip") = s +:+ ".ext".
Proof.
  intros Hs. unfold getOutFile. rewrite endsWith_append, length_append. cbn [andb].
  destruct s as [|c s]; [done|].
  replace (4 <? String.length (String c s) + String.length ".zip")%nat with true
    by (symmetry; apply Nat.ltb_lt; simpl; lia).
  replace (String.length (String c s) + String.length ".zip" - 4)%nat
    with (String.length (String c s)) by (simpl; lia).
  by rewrite substring_append_l.
Qed.

(** X1. Without [--out], the output file always carries the extension
    ".ext". *)
Theorem getOutFile_default_extension (src : string) :
  endsWith (getOutFile None src) ".ext" = true.
Proof.
  unfold getOutFile.
  destruct (endsWith src ".zip" && (4 <? String.length src)%nat);
    apply endsWith_append.
Qed.

Lemma getOutFile_differs (src : string) : getOutFile None src ≠ src.
Proof.
  unfold getOutFile.
  destruct (endsWith src ".zip") eqn:Hzip; cbn [andb];
    [destruct (4 <? String.length src)%nat|].
  - intros H. pose proof (eq_trans H (endsWith_split _ _ Hzip)) as H'.
    apply (inj (String.append _)) in H'. discriminate H'.
  - intros H%(f_equal String.length). rewrite length_append in H. simpl in H. lia.
  - intros H%(f_equal String.length). rewrite length_append in H. simpl in H. lia.
Qed.


(** X2. Without [--out], the output file is never the source path
    itself: packing by default cannot aim at its own input. *)
Theorem getOutFile_default_not_source (src : string) :
  getOutFile None src ≠ src.
Proof. apply getOutFile_differs. Qed.

(** X3. A source named [s] followed by ".zip" is packed to [s] followed
    by ".ext"; the bare name ".zip" is the exception and keeps its
    name in front of the new extension. *)
Theorem getOutFile_strips_zip (s : string) :
  getOutFile None (s +:+ ".zip")
  = match s with
    | EmptyString => ".zip.ext"
    | _ => s +:+ ".ext"
    end.
Proof.
  destruct s as [|c s]; [reflexivity|].
  by apply getOutFile_zip_name.
Qed.

(** X4. The default output file does not tell a directory from its
    archive: a source [s] (not itself named "....zip") and the source
    [s] followed by ".zip" are packed to the same file. *)
Theorem getOutFile_collision (s : string) :
  s ≠ EmptyString →
  endsWith s ".zip" = false →
  getOutFile None (s +:+ ".zip") = getOutFile None s.
Proof.
  intros Hs Hzip. rewrite getOutFile_zip_name by done.
  unfold getOutFile. by rewrite Hzip.
Qed.

Lemma getOutFile_collision_witness :
  "ext" ≠ EmptyString
  ∧ endsWith "ext" ".zip" = false
  ∧ getOutFile None ("ext" +:+ ".zip") = getOutFile None "ext".
Proof.
  split; [discriminate|]. split; [reflexivity|].
  apply getOutFile_collision; [discriminate | reflexivity].
Defined.

(** ** The range checks of the assembly *)

(** X5. The assembly either yields the container, and then the total
    size is within [kMaxLength] and both length fields fit 32 bits, or it
    raises a [RangeError], and then one of these bounds is broken: an
    oversized key or signature is reported, never truncated. The payload
    has no 32-bit bound of its own. *)
Theorem assemble_range (P : Platform) (publicKeyDer signature payload : Buffer) :
  match assemble P publicKeyDer (length publicKeyDer) signature (length signature)
          payload with
  | inr buf =>
      buf = container publicKeyDer signature payload
      ∧ N.of_nat (16 + length publicKeyDer + length signature + length payload)
          ≤ kMaxLength P
      ∧ N.of_nat (length publicKeyDer) ≤ 4294967295
      ∧ N.of_nat (length signature) ≤ 4294967295
  | inl e =>
      (∃ what, e = RangeError what)
      ∧ ¬ (N.of_nat (16 + length publicKeyDer + length signature + length payload)
             ≤ kMaxLength P
           ∧ N.of_nat (length publicKeyDer) ≤ 4294967295
           ∧ N.of_nat (length signature) ≤ 4294967295)
  end.
Proof.
  destruct (assemble P _ _ _ _ _) as [e|buf] eqn:Hasm.
  - split.
    + revert Hasm. unfold assemble.
      destruct (Buf.alloc _ _); cbn [of_option mbind res_bind]; [|intros [= <-]; eauto].
      destruct (Buf.writeUint32LE _ (length publicKeyDer) 8);
        cbn [of_option mbind res_bind]; [|intros [= <-]; eauto].
      destruct (Buf.writeUint32LE _ (length signature) 12);
        cbn [of_option mbind res_bind]; [done|intros [= <-]; eauto].
    + intros (Hmax & Hpk & Hsig). by rewrite assemble_ok in Hasm.
  - pose proof (assemble_inv _ _ _ _ _ Hasm) as (-> & Hpk & Hsig).
    split_and!; try done.
    revert Hasm. unfold assemble, Buf.alloc.
    destruct (_ <=? kMaxLength P) eqn:Hmax; [|done].
    intros _. by apply N.leb_le.
Qed.

(** X6. The layout is injective: two assemblies that yield the same
    container were given the same public key, the same signature and the
    same payload. *)
Theorem assemble_injective (P : Platform)
    (pk sig zip pk' sig' zip' buf : Buffer) :
  assemble P pk (length pk) sig (length sig) zip = inr buf →
  assemble P pk' (length pk') sig' (length sig') zip' = inr buf →
  pk = pk' ∧ sig = sig' ∧ zip = zip'.
Proof.
  intros (-> & Hpk & Hsig)%assemble_inv (Heq & Hpk' & Hsig')%assemble_inv.
  assert (length pk = length pk') as Hl1.
  { pose proof (container_publicKeyLength pk sig zip Hpk) as H1.
    rewrite Heq, container_publicKeyLength in H1 by done.
    injection H1 as H1. lia. }
  assert (length sig = length sig') as Hl2.
  { pose proof (container_signatureLength pk sig zip Hsig) as H2.
    rewrite Heq, container_signatureLength in H2 by done.
    injection H2 as H2. lia. }
  split_and!.
  - rewrite <- (container_publicKey pk sig zip), Heq, Hl1.
    apply container_publicKey.
  - rewrite <- (container_signature pk sig zip), Heq, Hl1, Hl2.
    apply container_signature.
  - rewrite <- (container_payload pk sig zip), Heq, Hl1, Hl2.
    apply container_payload.
Qed.

Lemma assemble_injective_witness :
  assemble Example.sound [Byte.x30] 1 [Byte.xa1; Byte.xa2] 2 [Byte.x50]
    = inr (container [Byte.x30] [Byte.xa1; Byte.xa2] [Byte.x50])
  ∧ ([Byte.x30] = [Byte.x30] ∧ [Byte.xa1; Byte.xa2] = [Byte.xa1; Byte.xa2]
     ∧ [Byte.x50] = [Byte.x50]).
Proof.
  split; [vm_compute; reflexivity|].
  apply (assemble_injective Example.sound _ _ _ _ _ _
           (container [Byte.x30] [Byte.xa1; Byte.xa2] [Byte.x50]));
    vm_compute; reflexivity.
Defined.

(** ** What a successful [pack] leaves behind *)

Section PackFrame.
Context (P : Platform).

Lemma read_zip_success_source src w zip w' :
  read_zip P src w = (inr zip, w') → is_Some (fs w !! src).
Proof.
  destruct (fs w !! src) as [n|] eqn:Hsrc; [eauto|].
  unfold read_zip. unfold_monad. unfold_prims. world_simpl. by rewrite Hsrc.
Qed.

(** A second run stops at the output file of the first. *)
Lemma pack_refused_output options w :
  is_Some (fs w !! PackOptions.privateKeyFile options) →
  is_Some (fs w !! PackOptions.sourcePath options) →
  default false (PackOptions.force options) = false →
  is_Some (fs w !! PackOptions.outFile options) →
  pack P options w
  = (inl (Spec.AlreadyExists_output (PackOptions.outFile options)),
     logs [EvExists (PackOptions.privateKeyFile options);
           EvExists (PackOptions.sourcePath options);
           EvExists (PackOptions.outFile options)] w).
Proof.
  destruct options as [pkf src out force].
  cbn [PackOptions.privateKeyFile PackOptions.sourcePath PackOptions.outFile
       PackOptions.force].
  intros [nk Hk] [ns Hs] Hforce [no Ho].
  unfold pack. unfold_monad. unfold existsSync.
  cbn [PackOptions.privateKeyFile PackOptions.sourcePath PackOptions.outFile
       PackOptions.force].
  world_simpl. rewrite !is_Some_bool, Hk. cbn [negb]. world_simpl.
  rewrite !is_Some_bool, Hs, Hforce. cbn [negb]. world_simpl.
  rewrite is_Some_bool, Ho. f_equal. same_world.
Qed.

Lemma pack_success_frame options w w' :
  scratch_vacant P w →
  pack P options w = (inr tt, w') →
  is_Some (fs w !! PackOptions.privateKeyFile options)
  ∧ is_Some (fs w !! PackOptions.sourcePath options)
  ∧ ∃ bytes, fs w' = <[PackOptions.outFile options := File bytes]> (fs w).
Proof.
  intros Hvac Hrun.
  apply pack_run in Hrun as [(e & evs & ? & _)|Hrun]; [done|].
  destruct Hrun as (pem & key & zip & sig & evk & wz & evs & Hk & _ & _
                    & Hz & _ & _ & _ & _ & _ & Hframe & Hw).
  split; [eauto|]. split.
  - by apply read_zip_success_source in Hz.
  - apply write_file_ok in Hw. world_simpl.
    rewrite (scratch_frame_vacant P w wz) in Hw by done. eauto.
Qed.

End PackFrame.

(** X7. A successful [pack] changes the file system at the output path
    and nowhere else: the key file, the source and every other path hold
    what they held, and the scratch directory has left no trace. (The
    file system is a real one: nothing lies beneath the free name that
    [mkdtemp] picks.) *)
Theorem pack_touches_only_output (P : Platform) (options : PackOptions.t) (w w' : World) :
  scratch_vacant P w →
  pack P options w = (inr tt, w') →
  ∀ path, path ≠ PackOptions.outFile options → fs w' !! path = fs w !! path.
Proof.
  intros Hvac Hrun path Hne.
  destruct (pack_success_frame P options w w' Hvac Hrun) as (_ & _ & bytes & ->).
  by rewrite lookup_insert_ne.
Qed.

Lemma pack_touches_only_output_witness :
  scratch_vacant Example.sound Example.world
  ∧ pack Example.sound Example.pack_dir Example.world
    = (inr tt, (pack Example.sound Example.pack_dir Example.world).2)
  ∧ fs (pack Example.sound Example.pack_dir Example.world).2 !! "/tmp/a1b2c0"
    = fs Example.world !! "/tmp/a1b2c0".
Proof.
  assert (scratch_vacant Example.sound Example.world) as Hvac.
  { intros _. apply (bool_decide_unpack _). vm_compute. reflexivity. }
  split; [exact Hvac|]. split; [vm_compute; reflexivity|].
  apply (pack_touches_only_output Example.sound Example.pack_dir Example.world).
  - exact Hvac.
  - vm_compute. reflexivity.
  - discriminate.
Defined.

(** X8. Without [force], [pack] does not run twice: after a successful
    run the same call is refused with the "already exists" error for the
    output file, having done nothing but the three probes, so the first
    container stays as written. *)
Theorem pack_twice_refused (P : Platform) (options : PackOptions.t) (w w1 : World) :
  scratch_vacant P w →
  default false (PackOptions.force options) = false →
  pack P options w = (inr tt, w1) →
  pack P options w1
  = (inl (Spec.AlreadyExists_output (PackOptions.outFile options)),
     logs [EvExists (PackOptions.privateKeyFile options);
           EvExists (PackOptions.sourcePath options);
           EvExists (PackOptions.outFile options)] w1).
Proof.
  intros Hvac Hforce Hrun.
  destruct (pack_success_frame P options w w1 Hvac Hrun) as (Hk & Hs & bytes & Hfs).
  apply pack_refused_output; [| |done|]; rewrite Hfs.
  - apply lookup_insert_is_Some'. auto.
  - apply lookup_insert_is_Some'. auto.
  - rewrite lookup_insert_eq. eauto.
Qed.

Lemma pack_twice_refused_witness :
  scratch_vacant Example.sound Example.world
  ∧ default false (PackOptions.force Example.pack_file) = false
  ∧ pack Example.sound Example.pack_file Example.world
    = (inr tt, (pack Example.sound Example.pack_file Example.world).2)
  ∧ (pack Example.sound Example.pack_file
       (pack Example.sound Example.pack_file Example.world).2).1
    = inl (Spec.AlreadyExists_output "ext.ext").
Proof.
  assert (scratch_vacant Example.sound Example.world) as Hvac.
  { intros _. apply (bool_decide_unpack _). vm_compute. reflexivity. }
  split; [exact Hvac|]. split; [reflexivity|]. split; [vm_compute; reflexivity|].
  rewrite (pack_twice_refused Example.sound Example.pack_file Example.world
             (pack Example.sound Example.pack_file Example.world).2 Hvac eq_refl).
  - reflexivity.
  - vm_compute. reflexivity.
Defined.

(** ** After the validation: loading the key, typing the source *)

Section PackStages.
Context (P : Platform).

(** Once the three checks have passed, [pack] is the rest of its body,
    run after the probes. *)
Lemma pack_validated options w :
  is_Some (fs w !! PackOptions.privateKeyFile options) →
  is_Some (fs w !! PackOptions.sourcePath options) →
  default false (PackOptions.force options) = true
    ∨ fs w !! PackOptions.outFile options = None →
  pack P options w
  = (pem ← readFileSync P (PackOptions.privateKeyFile options);
     privateKey ← createPrivateKey P pem;
     publicKey ← createPublicKey P privateKey;
     publicKeyDer ← export P publicKey "der" "spki";
     zip ← read_zip P (PackOptions.sourcePath options);
     signature ← Sign_sign P
                   (Sign_end (Sign_update (createSign "RSA-SHA1") zip)) privateKey;
     buffer ← lift (assemble P publicKeyDer (length publicKeyDer)
                      signature (length signature) zip);
     writeFile P (PackOptions.outFile options) buffer)
      (logs (validation_probes options) w).
Proof.
  destruct options as [pkf src out force]. unfold validation_probes.
  cbn [PackOptions.privateKeyFile PackOptions.sourcePath PackOptions.outFile
       PackOptions.force].
  intros [nk Hk] [ns Hs] Hout.
  unfold pack. unfold_monad. unfold existsSync.
  cbn [PackOptions.privateKeyFile PackOptions.sourcePath PackOptions.outFile
       PackOptions.force].
  world_simpl. rewrite !is_Some_bool, Hk. cbn [negb]. world_simpl.
  rewrite !is_Some_bool, Hs. cbn [negb]. world_simpl.
  destruct (default false force); cbn [negb]; world_simpl.
  - f_equal. same_world.
  - destruct Hout as [?|Hout]; [done|]. rewrite is_Some_bool, Hout.
    f_equal. same_world.
Qed.

End PackStages.

(** X9. A key file that does not parse stops [pack] with the error of
    [createPrivateKey] right after the file was read: the source is not
    even looked at (no [stat]), nothing is signed or written, and the
    file system is as it was. *)
Theorem pack_invalid_key (P : Platform) (options : PackOptions.t) (w : World)
    (pem : Buffer) :
  fs w !! PackOptions.privateKeyFile options = Some (File pem) →
  read_fault P (PackOptions.privateKeyFile options) = false →
  crypto_createPrivateKey P pem = None →
  is_Some (fs w !! PackOptions.sourcePath options) →
  default false (PackOptions.force options) = true
    ∨ fs w !! PackOptions.outFile options = None →
  pack P options w
  = (inl (CryptoError "createPrivateKey"),
     logs (validation_probes options
           ++ [EvReadFile (PackOptions.privateKeyFile options);
               EvCreatePrivateKey pem]) w).
Proof.
  intros Hk Hfault Hkey Hs Hout.
  rewrite pack_validated by eauto.
  unfold_monad. unfold readFileSync, read_file, createPrivateKey. world_simpl.
  rewrite Hk, Hfault, Hkey. cbn [of_option]. f_equal. same_world.
Qed.

Lemma pack_invalid_key_witness :
  fs Scene.world !! "empty.pem" = Some (File [])
  ∧ pack Example.sound Scene.pack_bad_key Scene.world
    = (inl (CryptoError "createPrivateKey"),
       logs [EvExists "empty.pem"; EvExists "ext.zip"; EvExists "ext.ext";
             EvReadFile "empty.pem"; EvCreatePrivateKey []] Scene.world).
Proof.
  split; [vm_compute; reflexivity|].
  apply (pack_invalid_key Example.sound Scene.pack_bad_key Scene.world []).
  - vm_compute. reflexivity.
  - reflexivity.
  - reflexivity.
  - vm_compute. eexists. reflexivity.
  - right. vm_compute. reflexivity.
Defined.

(** X10. The validation only asks whether the key path exists: when it
    names a directory or a socket the checks pass and [pack] fails at
    the read of the key, with the system error of that read (EISDIR for
    a directory, ENXIO for a socket) and nothing else done. *)
Theorem pack_key_not_a_file (P : Platform) (options : PackOptions.t) (w : World) :
  fs w !! PackOptions.privateKeyFile options = Some Directory
    ∨ fs w !! PackOptions.privateKeyFile options = Some Socket →
  is_Some (fs w !! PackOptions.sourcePath options) →
  default false (PackOptions.force options) = true
    ∨ fs w !! PackOptions.outFile options = None →
  ∃ code,
    pack P options w
    = (inl (SystemError code (PackOptions.privateKeyFile options)),
       logs (validation_probes options
             ++ [EvReadFile (PackOptions.privateKeyFile options)]) w)
    ∧ (fs w !! PackOptions.privateKeyFile options = Some Directory → code = "EISDIR")
    ∧ (fs w !! PackOptions.privateKeyFile options = Some Socket → code = "ENXIO").
Proof.
  intros Hk Hs Hout.
  rewrite pack_validated by (destruct Hk as [Hk|Hk]; rewrite ?Hk; eauto).
  unfold_monad. unfold readFileSync, read_file. world_simpl.
  destruct Hk as [Hk|Hk]; rewrite Hk; eexists;
    (split; [f_equal; same_world|split; intros [=]; done]).
Qed.

Lemma pack_key_not_a_file_witness :
  fs Scene.world !! "keys" = Some Directory
  ∧ pack Example.sound Scene.pack_key_directory Scene.world
    = (inl (SystemError "EISDIR" "keys"),
       logs [EvExists "keys"; EvExists "ext.zip"; EvExists "ext.ext";
             EvReadFile "keys"] Scene.world).
Proof.
  assert (fs Scene.world !! "keys" = Some Directory) as Hk by (vm_compute; reflexivity).
  split; [exact Hk|].
  destruct (pack_key_not_a_file Example.sound Scene.pack_key_directory Scene.world)
    as (code & Hrun & Hcode & _).
  - left. exact Hk.
  - vm_compute. eexists. reflexivity.
  - right. vm_compute. reflexivity.
  - rewrite Hrun, (Hcode Hk). reflexivity.
Defined.

(** X11. A source that is neither a file nor a directory passes the
    validation and is only turned down, with the "is not a directory or
    a file" error, after the key has been read, parsed and exported;
    nothing is signed or written and the file system is as it was. *)
Theorem pack_unsupported_source (P : Platform) (options : PackOptions.t) (w : World)
    (pem : Buffer) (key : PrivateKey P) :
  fs w !! PackOptions.privateKeyFile options = Some (File pem) →
  read_fault P (PackOptions.privateKeyFile options) = false →
  crypto_createPrivateKey P pem = Some key →
  fs w !! PackOptions.sourcePath options = Some Socket →
  default false (PackOptions.force options) = true
    ∨ fs w !! PackOptions.outFile options = None →
  pack P options w
  = (inl (Error ("Source path '" +:+ PackOptions.sourcePath options
                 +:+ "' is not a directory or a file")),
     logs (validation_probes options
           ++ [EvReadFile (PackOptions.privateKeyFile options);
               EvCreatePrivateKey pem; EvCreatePublicKey; EvExportKey "der" "spki";
               EvStat (PackOptions.sourcePath options)]) w).
Proof.
  intros Hk Hfault Hkey Hs Hout.
  rewrite pack_validated by eauto.
  unfold_monad.
  unfold readFileSync, read_file, createPrivateKey, createPublicKey, export.
  world_simpl. rewrite Hk, Hfault, Hkey. cbn [of_option].
  unfold read_zip. unfold_monad. unfold stat. world_simpl. rewrite Hs.
  cbn [isDirectory isFile]. f_equal. same_world.
Qed.

Lemma pack_unsupported_source_witness :
  fs Scene.world !! "sock" = Some Socket
  ∧ pack Example.sound Scene.pack_socket Scene.world
    = (inl (Error "Source path 'sock' is not a directory or a file"),
       logs [EvExists "private.pem"; EvExists "sock"; EvExists "sock.ext";
             EvReadFile "private.pem"; EvCreatePrivateKey [Byte.x01; Byte.x02; Byte.x03];
             EvCreatePublicKey; EvExportKey "der" "spki"; EvStat "sock"] Scene.world).
Proof.
  split; [vm_compute; reflexivity|].
  apply (pack_unsupported_source Example.sound Scene.pack_socket Scene.world
           [Byte.x01; Byte.x02; Byte.x03] [Byte.x01; Byte.x02; Byte.x03]).
  - vm_compute. reflexivity.
  - reflexivity.
  - reflexivity.
  - vm_compute. reflexivity.
  - right. vm_compute. reflexivity.
Defined.

(** ** Directory sources: the archive *)

Section Archive.
Context (P : Platform).

(** The payload of a directory is what reached the staging file: the
    stream to it has no listener for errors, so a write that broke off
    goes unnoticed and what it left is read back. *)
Lemma read_zip_directory_payload src w zip w' :
  scratch_vacant P w →
  fs w !! src = Some Directory →
  read_zip P src w = (inr zip, w') →
  fs w !! scratch P w = None
  ∧ ∃ produced,
      archiver_zip P 9 (<[scratch P w := Directory]> (fs w)) src = (produced, None)
      ∧ match write_fault P (path_join P (scratch P w) "extension.zip") produced with
        | WriteOk => zip = produced
        | WriteShort n => zip = take n produced
        | WriteRefused => False
        end.
Proof.
  intros Hvac Hsrc. unfold read_zip, createZip, stage.
  unfold_monad. unfold_prims. world_simpl.
  rewrite Hsrc. cbn [isDirectory]. world_simpl. fold (scratch P w).
  destruct (mkdtemp_fault P _); [intros [=]|].
  destruct (fs w !! scratch P w) as [x|] eqn:Hfree; [intros [=]|]. world_simpl.
  destruct (archiver_zip P 9 _ src) as [produced err].
  assert (Hold : ∀ data,
            fs w !! path_join P (scratch P w) "extension.zip" ≠ Some (File data)).
  { intros data Hin. apply (Hvac Hfree) in Hin.
    by rewrite under_path_join in Hin. }
  destruct err as [e|]; world_simpl;
    destruct (write_fault P _ produced) as [| |n] eqn:Hwf; world_simpl;
    rewrite ?lookup_insert_eq;
    repeat match goal with
           | |- context [match ?m !! ?k with _ => _ end] =>
               destruct (m !! k) as [[?| |]|] eqn:?; world_simpl
           | |- context [if read_fault P ?k then _ else _] =>
               destruct (read_fault P k); world_simpl
           | |- context [match rm_fault P ?k with _ => _ end] =>
               destruct (rm_fault P k); world_simpl
           end;
    intros Hrun; try discriminate Hrun;
    try (exfalso;
         match goal with
         | H : <[_ := Directory]> _ !! path_join _ _ _ = Some (File _) |- _ =>
             apply lookup_insert_Some in H as [[_ [=]]|[_ Hin]];
             eapply Hold; exact Hin
         end);
    injection Hrun as Hzip _;
    (split; [reflexivity|]); exists produced; (split; [reflexivity|]);
    rewrite Hwf; done.
Qed.

(** An error of the archiver: the four calls of the step, the removal of
    the scratch directory last; the step fails with the archiver's error,
    or with the error of the removal when that fails too. *)
Lemma read_zip_archive_error src w written e :
  fs w !! src = Some Directory →
  mkdtemp_fault P (os_tmpdir P +:+ path_sep P) = None →
  fs w !! scratch P w = None →
  archiver_zip P 9 (<[scratch P w := Directory]> (fs w)) src = (written, Some e) →
  ∃ w',
    read_zip P src w
    = (inl (match rm_fault P (scratch P w) with
            | None => e
            | Some code => SystemError code (scratch P w)
            end), w')
    ∧ trace w' = trace w ++ [EvStat src; EvMkdtemp (scratch P w);
                             EvCreateZip src (path_join P (scratch P w) "extension.zip");
                             EvRm (scratch P w)]
    ∧ (rm_fault P (scratch P w) = None →
       fs w' = filter (outside P (scratch P w)) (fs w)).
Proof.
  intros Hsrc Hmk Hfree Harch.
  unfold read_zip, createZip. unfold_monad. unfold_prims. world_simpl.
  rewrite Hsrc. cbn [isDirectory]. world_simpl. fold (scratch P w).
  rewrite Hmk, Hfree. world_simpl. rewrite Harch. world_simpl.
  destruct (stage_is_Some P (<[scratch P w := Directory]> (fs w))
              (path_join P (scratch P w) "extension.zip") written (scratch P w))
    as [x Hx]; [rewrite lookup_insert_eq; eauto|].
  rewrite Hx.
  destruct (rm_fault P (scratch P w)) as [code|]; world_simpl;
    eexists; (split; [reflexivity|]); world_simpl;
    (split; [by rewrite <- !app_assoc|]); [intros [=]|intros _].
  by rewrite filter_outside_stage.
Qed.

End Archive.

(** X12. When the source is a directory, the payload of the container a
    successful [pack] writes is what reached the staging file of the
    archiver's output for that directory (compression level 9, no error
    raised by the archiver): all of it when the staging write went
    through, and its first [n] bytes when that write broke off after [n]
    bytes, because nothing listens for errors of the staging stream; a
    staging file that could not be opened makes the run fail.  The
    scratch directory was made under a free name. *)
Theorem pack_directory_payload (P : Platform) (options : PackOptions.t)
    (w w' : World) :
  scratch_vacant P w →
  fs w !! PackOptions.sourcePath options = Some Directory →
  pack P options w = (inr tt, w') →
  ∃ publicKeyDer signature produced zip,
    fs w' !! PackOptions.outFile options
      = Some (File (container publicKeyDer signature zip))
    ∧ fs w !! scratch P w = None
    ∧ archiver_zip P 9 (<[scratch P w := Directory]> (fs w))
        (PackOptions.sourcePath options) = (produced, None)
    ∧ match write_fault P (path_join P (scratch P w) "extension.zip") produced with
      | WriteOk => zip = produced
      | WriteShort n => zip = take n produced
      | WriteRefused => False
      end.
Proof.
  intros Hvac Hsrc Hrun.
  apply pack_success in Hrun
    as (pem & key & zip & sig & evk & wz & evs & _ & _ & Hz & _ & _ & _ & _ & _
        & _ & Hfs).
  apply read_zip_directory_payload in Hz as (Hfree & produced & Harch & Hzip);
    [|done|done].
  eexists _, sig, produced, zip. split_and!.
  - rewrite Hfs. apply lookup_insert_eq.
  - exact Hfree.
  - exact Harch.
  - exact Hzip.
Qed.

Lemma pack_directory_payload_witness :
  scratch_vacant Example.staging_short Example.world
  ∧ fs Example.world !! "ext" = Some Directory
  ∧ pack Example.staging_short Example.pack_dir Example.world
    = (inr tt, (pack Example.staging_short Example.pack_dir Example.world).2)
  ∧ archiver_zip Example.staging_short 9
      (<[scratch Example.staging_short Example.world := Directory]> (fs Example.world))
      "ext" = ([Byte.x50; Byte.x4b; Byte.x05], None)
  ∧ ∃ publicKeyDer signature,
      fs (pack Example.staging_short Example.pack_dir Example.world).2 !! "ext.ext"
      = Some (File (container publicKeyDer signature [Byte.x50; Byte.x4b])).
Proof.
  assert (Hvac : scratch_vacant Example.staging_short Example.world).
  { intros _. apply (bool_decide_unpack _). vm_compute. reflexivity. }
  split; [exact Hvac|].
  split; [vm_compute; reflexivity|]. split; [vm_compute; reflexivity|].
  split; [vm_compute; reflexivity|].
  destruct (pack_directory_payload Example.staging_short Example.pack_dir Example.world
              (pack Example.staging_short Example.pack_dir Example.world).2)
    as (pk & sig & produced & zip & Hfs & _ & Harch & Hzip).
  - exact Hvac.
  - vm_compute. reflexivity.
  - vm_compute. reflexivity.
  - vm_compute in Harch. injection Harch as <-.
    vm_compute in Hzip. subst zip. exists pk, sig. exact Hfs.
Defined.

(** X13. When the archiver raises an error on a directory source and the
    scratch directory could be made, [pack] makes exactly these calls
    after its validation: it reads and imports the key, derives and
    exports the public key, stats the source, makes the scratch
    directory, runs the archiver and removes the scratch directory.  The
    staged file is not read, nothing is signed and nothing is written.
    [pack] fails with the archiver's error when the removal goes through,
    and then neither the scratch directory nor anything in it is left;
    when the removal fails too, [pack] fails with the error of the
    removal instead. *)
Theorem pack_archive_error (P : Platform) (options : PackOptions.t) (w : World)
    (pem : Buffer) (key : PrivateKey P) (written : Buffer) (e : error) :
  fs w !! PackOptions.privateKeyFile options = Some (File pem) →
  read_fault P (PackOptions.privateKeyFile options) = false →
  crypto_createPrivateKey P pem = Some key →
  fs w !! PackOptions.sourcePath options = Some Directory →
  default false (PackOptions.force options) = true
    ∨ fs w !! PackOptions.outFile options = None →
  mkdtemp_fault P (os_tmpdir P +:+ path_sep P) = None →
  fs w !! scratch P w = None →
  archiver_zip P 9 (<[scratch P w := Directory]> (fs w))
    (PackOptions.sourcePath options) = (written, Some e) →
  ∃ w',
    pack P options w
    = (inl (match rm_fault P (scratch P w) with
            | None => e
            | Some code => SystemError code (scratch P w)
            end), w')
    ∧ new_events w w'
      = validation_probes options
        ++ [EvReadFile (PackOptions.privateKeyFile options);
            EvCreatePrivateKey pem; EvCreatePublicKey; EvExportKey "der" "spki";
            EvStat (PackOptions.sourcePath options);
            EvMkdtemp (scratch P w);
            EvCreateZip (PackOptions.sourcePath options)
              (path_join P (scratch P w) "extension.zip");
            EvRm (scratch P w)]
    ∧ (rm_fault P (scratch P w) = None →
       fs w' = filter (outside P (scratch P w)) (fs w)).
Proof.
  intros Hk Hfault Hkey Hs Hout Hmk Hfree Harch.
  rewrite pack_validated by eauto.
  unfold_monad.
  unfold readFileSync, read_file, createPrivateKey, createPublicKey, export.
  world_simpl. rewrite Hk, Hfault, Hkey. cbn [of_option].
  match goal with
  | |- context [read_zip P ?s ?wk] =>
      destruct (read_zip_archive_error P s wk written e Hs Hmk Hfree Harch)
        as (wz & Hz & Htr & Hfs)
  end.
  rewrite Hz. exists wz. split; [reflexivity|]. split; [|exact Hfs].
  apply new_events_app. rewrite Htr. world_simpl.
  by rewrite <- !app_assoc.
Qed.

Lemma pack_archive_error_witness :
  archiver_zip Example.broken_archive 9
    (<[scratch Example.broken_archive Scene.world := Directory]> (fs Scene.world)) "ext"
    = ([Byte.x50; Byte.x4b; Byte.x05], Some (ArchiverError "finalize"))
  ∧ ∃ w',
      pack Example.broken_archive Scene.pack_dir Scene.world
        = (inl (ArchiverError "finalize"), w')
      ∧ new_events Scene.world w'
        = [EvExists "private.pem"; EvExists "ext"; EvExists "ext.ext";
           EvReadFile "private.pem";
           EvCreatePrivateKey [Byte.x01; Byte.x02; Byte.x03];
           EvCreatePublicKey; EvExportKey "der" "spki";
           EvStat "ext"; EvMkdtemp "/tmp/a1b2c0";
           EvCreateZip "ext" "/tmp/a1b2c0/extension.zip";
           EvRm "/tmp/a1b2c0"]
      ∧ fs w' = filter (outside Example.broken_archive "/tmp/a1b2c0") (fs Scene.world).
Proof.
  split; [reflexivity|].
  destruct (pack_archive_error Example.broken_archive Scene.pack_dir Scene.world
              [Byte.x01; Byte.x02; Byte.x03] [Byte.x01; Byte.x02; Byte.x03]
              [Byte.x50; Byte.x4b; Byte.x05] (ArchiverError "finalize"))
    as (w' & Hrun & Hev & Hfs).
  - vm_compute. reflexivity.
  - reflexivity.
  - reflexivity.
  - vm_compute. reflexivity.
  - right. vm_compute. reflexivity.
  - reflexivity.
  - vm_compute. reflexivity.
  - reflexivity.
  - exists w'. split; [exact Hrun|]. split; [exact Hev | exact (Hfs eq_refl)].
Defined.

(** ** Key generation: failures, [force], and the key's way into [pack] *)



(** X15. With [force], a directory at the key path is not noticed before
    the key pair has been generated: [keygen] draws the entropy, makes the
    key, and only then fails with EISDIR at the write; the file system is
    unchanged and the key is lost. *)
Theorem keygen_force_on_directory (P : Platform) (options : KeygenOptions.t)
    (w : World) (key : KeyPair.t) :
  default false (KeygenOptions.force options) = true →
  fs w !! KeygenOptions.privateKeyFile options = Some Directory →
  crypto_generate P "rsa" RSA_2048_PKCS8_PEM (entropy w) = Some key →
  keygen P options w
  = (inl (SystemError "EISDIR" (KeygenOptions.privateKeyFile options)),
     mkWorld (fs w) (N.succ (entropy w))
       (trace w ++ [EvGenerateKeyPair "rsa" RSA_2048_PKCS8_PEM;
                    EvWriteFile (KeygenOptions.privateKeyFile options)
                      (utf8 (KeyPair.privateKey key))])).
Proof.
  intros Hforce Hdir Hgen.
  unfold keygen. unfold_monad. unfold generateKeyPair, writeFile, write_file.
  rewrite Hforce. cbn [negb]. world_simpl. rewrite Hgen. world_simpl.
  rewrite Hdir. f_equal. unfold log, draw; world_simpl. by rewrite <- app_assoc.
Qed.

Lemma keygen_force_on_directory_witness :
  fs Scene.world !! "keys" = Some Directory
  ∧ (keygen Example.sound Scene.keygen_directory Scene.world).1
    = inl (SystemError "EISDIR" "keys")
  ∧ fs (keygen Example.sound Scene.keygen_directory Scene.world).2 = fs Scene.world.
Proof.
  split; [vm_compute; reflexivity|].
  rewrite (keygen_force_on_directory Example.sound Scene.keygen_directory Scene.world
             (KeyPair.make "PUBLIC" "PRIVATE0")).
  - split; reflexivity.
  - reflexivity.
  - vm_compute. reflexivity.
  - reflexivity.
Defined.

(** X16. With [force], [keygen] does not look whether the key file
    exists: it generates the key and replaces whatever file was there,
    of which nothing remains. *)
Theorem keygen_force_overwrites (P : Platform) (options : KeygenOptions.t)
    (w : World) (old : Buffer) (key : KeyPair.t) :
  default false (KeygenOptions.force options) = true →
  fs w !! KeygenOptions.privateKeyFile options = Some (File old) →
  crypto_generate P "rsa" RSA_2048_PKCS8_PEM (entropy w) = Some key →
  write_fault P (KeygenOptions.privateKeyFile options) (utf8 (KeyPair.privateKey key))
    = WriteOk →
  keygen P options w
  = (inr tt,
     mkWorld (<[KeygenOptions.privateKeyFile options :=
                  File (utf8 (KeyPair.privateKey key))]> (fs w))
       (N.succ (entropy w))
       (trace w ++ [EvGenerateKeyPair "rsa" RSA_2048_PKCS8_PEM;
                    EvWriteFile (KeygenOptions.privateKeyFile options)
                      (utf8 (KeyPair.privateKey key))])).
Proof.
  intros Hforce Hold Hgen Hok.
  unfold keygen. unfold_monad. unfold generateKeyPair, writeFile, write_file.
  rewrite Hforce. cbn [negb]. world_simpl. rewrite Hgen. world_simpl.
  rewrite Hold, Hok. f_equal. unfold set_fs, log, draw; world_simpl.
  by rewrite <- app_assoc.
Qed.

Lemma keygen_force_overwrites_witness :
  fs Scene.world !! "private.pem" = Some (File [Byte.x01; Byte.x02; Byte.x03])
  ∧ fs (keygen Example.sound (KeygenOptions.make "private.pem" (Some true))
          Scene.world).2 !! "private.pem"
    = Some (File (utf8 "PRIVATE0")).
Proof.
  split; [vm_compute; reflexivity|].
  rewrite (keygen_force_overwrites Example.sound
             (KeygenOptions.make "private.pem" (Some true)) Scene.world
             [Byte.x01; Byte.x02; Byte.x03] (KeyPair.make "PUBLIC" "PRIVATE0")).
  - apply lookup_insert_eq.
  - reflexivity.
  - vm_compute. reflexivity.
  - reflexivity.
  - reflexivity.
Defined.

(** X17. The key travels from [keygen] to [pack] through the key file
    alone: when [pack] succeeds on the file a successful [keygen] has
    just written, the PEM text it parses is the generated private key,
    and the container carries the public key derived from it and a
    signature made with it. *)
Theorem keygen_then_pack (P : Platform) (kopts : KeygenOptions.t)
    (popts : PackOptions.t) (w w1 w2 : World) :
  keygen P kopts w = (inr tt, w1) →
  PackOptions.privateKeyFile popts = KeygenOptions.privateKeyFile kopts →
  pack P popts w1 = (inr tt, w2) →
  ∃ key privateKey signature zip,
    crypto_generate P "rsa" RSA_2048_PKCS8_PEM (entropy w) = Some key
    ∧ crypto_createPrivateKey P (utf8 (KeyPair.privateKey key)) = Some privateKey
    ∧ crypto_sign P "RSA-SHA1" privateKey zip = Some signature
    ∧ fs w2 !! PackOptions.outFile popts
      = Some (File (container
                      (crypto_export P (crypto_createPublicKey P privateKey) "der" "spki")
                      signature zip)).
Proof.
  intros Hgen Hsame Hpack.
  apply keygen_run in Hgen as [(_ & _ & ?)|(_ & evs & _ & Hgen)]; [done|].
  destruct (crypto_generate P "rsa" RSA_2048_PKCS8_PEM (entropy w)) as [key|];
    [|by destruct Hgen].
  apply write_file_ok in Hgen. world_simpl.
  apply pack_success in Hpack
    as (pem & privateKey & zip & sig & evk & wz & evs' & Hk & Hkey & _ & _ & Hsig
        & _ & _ & _ & _ & Hfs).
  rewrite Hsame, Hgen, lookup_insert_eq in Hk. injection Hk as <-.
  exists key, privateKey, sig, zip. split_and!; try done.
  rewrite Hfs. apply lookup_insert_eq.
Qed.

Lemma keygen_then_pack_witness :
  keygen Example.sound Scene.keygen_new Scene.world
    = (inr tt, (keygen Example.sound Scene.keygen_new Scene.world).2)
  ∧ pack Example.sound Scene.pack_fresh_key
      (keygen Example.sound Scene.keygen_new Scene.world).2
    = (inr tt, (pack Example.sound Scene.pack_fresh_key
                  (keygen Example.sound Scene.keygen_new Scene.world).2).2)
  ∧ ∃ key privateKey,
      crypto_generate Example.sound "rsa" RSA_2048_PKCS8_PEM 0 = Some key
      ∧ crypto_createPrivateKey Example.sound (utf8 (KeyPair.privateKey key))
        = Some privateKey.
Proof.
  split; [vm_compute; reflexivity|]. split; [vm_compute; reflexivity|].
  destruct (keygen_then_pack Example.sound Scene.keygen_new Scene.pack_fresh_key
              Scene.world
              (keygen Example.sound Scene.keygen_new Scene.world).2
              (pack Example.sound Scene.pack_fresh_key
                 (keygen Example.sound Scene.keygen_new Scene.world).2).2)
    as (key & privateKey & _ & _ & Hgen & Hkey & _).
  - vm_compute. reflexivity.
  - reflexivity.
  - vm_compute. reflexivity.
  - exists key, privateKey. split; [exact Hgen | exact Hkey].
Defined.

(** ** The command line and its default output *)



(** X19. Packed by default and without [--force], an archive [s].zip and
    the directory [s] get in each other's way: once the archive has been
    packed, the command for the directory is refused, because both aim
    at [s].ext. (The file system is a real one, as above.) *)
Theorem pack_command_archive_then_directory (P : Platform) (s key : string)
    (w w1 : World) :
  scratch_vacant P w →
  s ≠ EmptyString →
  endsWith s ".zip" = false →
  is_Some (fs w !! s) →
  pack_command P (PackArgs.make (s +:+ ".zip") None key false) w = (inr tt, w1) →
  pack_command P (PackArgs.make s None key false) w1
  = (inl (Spec.AlreadyExists_output (s +:+ ".ext")),
     logs [EvExists key; EvExists s; EvExists (s +:+ ".ext")] w1).
Proof.
  intros Hvac Hs Hzip Hdir Hrun. unfold pack_command in *.
  cbn [PackArgs.key PackArgs.src PackArgs.out PackArgs.force] in *.
  rewrite getOutFile_zip_name in Hrun by done.
  assert (getOutFile None s = s +:+ ".ext") as -> by (unfold getOutFile; by rewrite Hzip).
  destruct (pack_success_frame P _ w w1 Hvac Hrun) as (Hk & _ & bytes & Hfs).
  cbn [PackOptions.privateKeyFile PackOptions.outFile] in *.
  rewrite (pack_refused_output P); cbn [PackOptions.privateKeyFile
    PackOptions.sourcePath PackOptions.outFile PackOptions.force]; try done.
  - rewrite Hfs. apply lookup_insert_is_Some'. auto.
  - rewrite Hfs. apply lookup_insert_is_Some'. auto.
  - rewrite Hfs, lookup_insert_eq. eauto.
Qed.

Lemma pack_command_archive_then_directory_witness :
  scratch_vacant Example.sound Scene.world
  ∧ pack_command Example.sound (PackArgs.make ("ext" +:+ ".zip") None "private.pem" false)
      Scene.world
    = (inr tt,
       (pack_command Example.sound
          (PackArgs.make ("ext" +:+ ".zip") None "private.pem" false) Scene.world).2)
  ∧ (pack_command Example.sound (PackArgs.make "ext" None "private.pem" false)
       (pack_command Example.sound
          (PackArgs.make ("ext" +:+ ".zip") None "private.pem" false) Scene.world).2).1
    = inl (Spec.AlreadyExists_output ("ext" +:+ ".ext")).
Proof.
  assert (scratch_vacant Example.sound Scene.world) as Hvac.
  { intros _. apply (bool_decide_unpack _). vm_compute. reflexivity. }
  split; [exact Hvac|]. split; [vm_compute; reflexivity|].
  rewrite (pack_command_archive_then_directory Example.sound "ext" "private.pem"
             Scene.world _ Hvac).
  - reflexivity.
  - discriminate.
  - reflexivity.
  - vm_compute. eexists. reflexivity.
  - vm_compute. reflexivity.
Defined.

(** X20. [pack] calls [writeFile] at most once, as the last thing it
    does, and only on the output file. *)
Theorem pack_writes_once (P : Platform) (options : PackOptions.t)
    (w : World) (r : res unit) (w' : World) :
  pack P options w = (r, w') →
  ∀ path data,
    EvWriteFile path data ∈ new_events w w' →
    path = PackOptions.outFile options
    ∧ ∃ evs, new_events w w' = evs ++ [EvWriteFile path data]
             ∧ Forall no_write evs.
Proof.
  intros Hrun path data Hin.
  apply pack_run in Hrun as [(e & evs & _ & Htr & Hnw & _)|Hrun].
  { rewrite (new_events_app _ _ _ Htr) in Hin. by apply no_write_not_write in Hin. }
  destruct Hrun as (pem & key & zip & sig & evk & wz & evs & _ & _ & _
                    & _ & _ & _ & _ & Htr & Hq & _ & Hwr).
  apply write_file_trace in Hwr. world_simpl.
  rewrite Htr, <- !app_assoc in Hwr.
  rewrite (new_events_app _ _ _ Hwr) in Hin |- *.
  rewrite !elem_of_app, !list_elem_of_singleton in Hin.
  destruct Hin as [Hin|[Hin|Hin]]; [by apply quiet_not_write in Hin|done|].
  injection Hin as -> ->. split; [done|].
  exists (evs ++ [EvSign "RSA-SHA1" zip]). split; [by rewrite <- app_assoc|].
  apply Forall_app. split.
  - eapply Forall_impl; [exact Hq | apply quiet_no_write].
  - repeat constructor.
Qed.

Lemma pack_writes_once_witness :
  pack Example.disk_full Example.pack_file Example.world
    = (inl (SystemError "ENOSPC" "ext.ext"),
       (pack Example.disk_full Example.pack_file Example.world).2)
  ∧ "ext.ext" = PackOptions.outFile Example.pack_file.
Proof.
  split; [vm_compute; reflexivity|].
  destruct (pack_writes_once Example.disk_full Example.pack_file Example.world
              (inl (SystemError "ENOSPC" "ext.ext"))
              (pack Example.disk_full Example.pack_file Example.world).2)
    with (path := "ext.ext")
         (data := container [Byte.x03; Byte.x02; Byte.x01]
                    [Byte.x01; Byte.x02; Byte.x50; Byte.x4b]
                    [Byte.x50; Byte.x4b; Byte.x05; Byte.x06])
    as [Hpath _].
  - vm_compute. reflexivity.
  - vm_compute. do 10 apply list_elem_of_further. apply list_elem_of_here.
  - exact Hpath.
Defined.


(** ** A source path with a separator at its end *)

(** X21. When the source path ends in a separator and no [--out] is
    given, the default output file is the entry ".ext" inside the source
    directory: the extension is appended to the path as it is written,
    separator included. *)
Theorem getOutFile_trailing_separator (P : Platform) (s : string) :
  path_sep P = posix_sep ∨ path_sep P = win32_sep →
  getOutFile None (s +:+ path_sep P) = path_join P s ".ext"
  ∧ under P s (getOutFile None (s +:+ path_sep P)) = true.
Proof.
  intros Hsep.
  assert (getOutFile None (s +:+ path_sep P) = path_join P s ".ext") as ->.
  { unfold getOutFile, path_join.
    rewrite (endsWith_zip_sep s (path_sep P) Hsep). cbn [andb].
    apply append_assoc. }
  split; [done|]. apply under_path_join.
Qed.

Lemma getOutFile_trailing_separator_witness :
  getOutFile None "ext/" = "ext/.ext"
  ∧ under Example.sound "ext" (getOutFile None "ext/") = true.
Proof.
  apply (getOutFile_trailing_separator Example.sound "ext").
  left. reflexivity.
Defined.
